(** * marko-sim: the allocation calculator and its renderer, over binary64

    The program ([marko_app.py]) is a dozen lines of conditional arithmetic on
    Python numbers.  Every arithmetic step of it involves a [float] literal
    ([90.0], [50.0], [0.45]) or a true division, so its values are IEEE 754
    binary64 numbers.  They are modelled here with the standard library's
    executable specification of IEEE arithmetic ([SpecFloat], precision 53,
    [emax] 1024, round to nearest even), which is what CPython's [float]
    computes.  The [int] values the dashboard hands over (the value slider,
    the threshold) are far below [2^53]: they are binary64 values exactly, and
    Python's mixed [int]/[float] arithmetic and comparisons agree on them with
    the arithmetic of the converted values. *)

From Stdlib Require Import ZArith Lia Bool String List.
From Stdlib Require Import SpecFloat.
Import ListNotations.

Local Open Scope Z_scope.

(** ** Python floats *)

Module PyFloat.

Definition prec : Z := 53.
Definition emax : Z := 1024.

Definition float := spec_float.

(** well-formed binary64 values: every Python float is one *)
Definition valid (x : float) : bool := valid_binary prec emax x.

Definition mul : float -> float -> float := SFmul prec emax.
Definition div : float -> float -> float := SFdiv prec emax.
Definition add : float -> float -> float := SFadd prec emax.
Definition sub : float -> float -> float := SFsub prec emax.

(** [x < y], [x > y], [x <= y], [x >= y] and [x == y] of Python; all of
    them are [False] as soon as one side is a NaN *)
Definition ltb (x y : float) : bool := SFltb x y.
Definition gtb (x y : float) : bool := SFltb y x.
Definition leb (x y : float) : bool := SFleb x y.
Definition geb (x y : float) : bool := SFleb y x.
Definition eqb (x y : float) : bool := SFeqb x y.

(** [float(z)] for an integer [z] *)
Definition of_Z (z : Z) : float := binary_normalize prec emax z 0 false.

Definition is_nan (x : float) : bool :=
  match x with S754_nan => true | _ => false end.

Definition is_finite (x : float) : bool :=
  match x with S754_zero _ | S754_finite _ _ _ => true | _ => false end.

(** Python's [min(a, b)]: the first argument unless the second is smaller *)
Definition min (a b : float) : float := if ltb b a then b else a.

Definition pos_zero : float := S754_zero false.

(** the literals of the program *)
Definition f90 : float := Eval vm_compute in of_Z 90.
Definition f50 : float := Eval vm_compute in of_Z 50.
Definition f1500 : float := Eval vm_compute in of_Z 1500.
Definition f1000 : float := Eval vm_compute in of_Z 1000.
Definition f1 : float := Eval vm_compute in of_Z 1.
(** [0.45]: the double nearest to 45/100, [0x3FDCCCCCCCCCCCCD] *)
Definition f0_45 : float := S754_finite false 8106479329266893 (-54).

End PyFloat.

Import PyFloat.

(** ** The calculator: [class MarkoEconomicSim] *)

Record MarkoEconomicSim := mkSim {
  QLT : float;
  population : float
}.

(** the dict returned by [calculate] *)
Record AllocationResult := mkResult {
  r_labor : float;
  r_auto : float;
  r_public : float;
  r_elites : float;
  r_policy : string
}.

(** [min(jobs_available, self.population)] *)
Definition workforce (self : MarkoEconomicSim) (jobs_available : float) : float :=
  PyFloat.min jobs_available (population self).

(** lines 19-20: [labor_val = workforce * 90.0; if labor_val > tvg: labor_val = tvg] *)
Definition labor_val (self : MarkoEconomicSim) (jobs_available tvg : float) : float :=
  let labor := mul (workforce self jobs_available) f90 in
  if gtb labor tvg then tvg else labor.

Definition standard_allocation (self : MarkoEconomicSim) (jobs_available : float) : float :=
  mul (workforce self jobs_available) f50.

(** lines 25-42: the policy branch; the allocation before the clamp and the
    policy label *)
Definition distribution (self : MarkoEconomicSim) (jobs_available tvg : float)
    (use_dividend use_stabilization : bool) : float * string :=
  let standard_allocation := standard_allocation self jobs_available in
  if use_dividend then
    (mul tvg f0_45, "National Dividend Active"%string)
  else if use_stabilization then
    if ltb tvg f1000 then
      (QLT self, "Stabilization Fund TRIGGERED"%string)
    else
      (standard_allocation, "Stabilization Fund (Standby)"%string)
  else
    if ltb tvg f1000 then
      (mul standard_allocation (div tvg f1500), "Recession Cutbacks"%string)
    else
      (standard_allocation, "Standard Model"%string).

Definition calculate (self : MarkoEconomicSim) (jobs_available tvg : float)
    (use_dividend use_stabilization : bool) : AllocationResult :=
  let labor_val := labor_val self jobs_available tvg in
  let auto_val := sub tvg labor_val in
  let '(allocation, policy_status) :=
    distribution self jobs_available tvg use_dividend use_stabilization in
  let allocation := if gtb allocation tvg then tvg else allocation in
  let elite_surplus := sub tvg allocation in
  mkResult labor_val auto_val allocation elite_surplus policy_status.

(** ** The method calls as the interpreter runs them

    An instance of the class is a reference to its attribute dictionary in
    the heap.  An attribute is read with [self.name], which raises
    [AttributeError] when the instance has no such attribute, and is written
    with [self.name = v].  The local variables of a call live in its frame,
    which is made at the call and dropped at the return: they are the bound
    variables below.  The dict a call returns is a fresh object, held here by
    value. *)

Module Py.

Definition addr : Type := nat.

(** the heap: for every object, its attribute dictionary *)
Definition Store : Type := addr -> string -> option float.

Definition empty : Store := fun _ _ => None.

Inductive outcome (A : Type) : Type :=
| Returned (a : A)
| AttributeError (name : string).

Arguments Returned {A} a.
Arguments AttributeError {A} name.

Definition M (A : Type) : Type := Store -> outcome A * Store.

Definition ret {A : Type} (a : A) : M A := fun st => (Returned a, st).

Definition bind {A B : Type} (m : M A) (k : A -> M B) : M B := fun st =>
  match m st with
  | (Returned a, st') => k a st'
  | (AttributeError name, st') => (AttributeError name, st')
  end.

Notation "x <- c1 ;; c2" := (bind c1 (fun x => c2))
  (at level 61, c1 at next level, right associativity).
Notation "c1 ;; c2" := (bind c1 (fun _ => c2))
  (at level 61, right associativity).

(** [self.name] *)
Definition getattr (self : addr) (name : string) : M float := fun st =>
  match st self name with
  | Some v => (Returned v, st)
  | None => (AttributeError name, st)
  end.

(** [self.name = v] *)
Definition setattr (self : addr) (name : string) (v : float) : M unit := fun st =>
  (Returned tt,
   fun a n => if (Nat.eqb a self && String.eqb n name)%bool then Some v else st a n).

(** [__init__(self, population, qlt)] *)
Definition call_init (self : addr) (population qlt : float) : M unit :=
  setattr self "QLT" qlt ;;
  setattr self "population" population.

(** [calculate(self, jobs_available, tvg, use_dividend, use_stabilization)],
    statement by statement *)
Definition call_calculate (self : addr) (jobs_available tvg : float)
    (use_dividend use_stabilization : bool) : M AllocationResult :=
  population <- getattr self "population" ;;
  let workforce := PyFloat.min jobs_available population in
  let labor_val := mul workforce f90 in
  let labor_val := if gtb labor_val tvg then tvg else labor_val in
  let auto_val := sub tvg labor_val in
  let standard_allocation := mul workforce f50 in
  let allocation := of_Z 0 in
  let policy_status := "Standard Model"%string in
  branch <-
    (if use_dividend then
       ret (mul tvg f0_45, "National Dividend Active"%string)
     else if use_stabilization then
       if ltb tvg f1000 then
         qlt <- getattr self "QLT" ;;
         ret (qlt, "Stabilization Fund TRIGGERED"%string)
       else
         ret (standard_allocation, "Stabilization Fund (Standby)"%string)
     else
       let allocation := standard_allocation in
       if ltb tvg f1000 then
         ret (mul standard_allocation (div tvg f1500), "Recession Cutbacks"%string)
       else
         ret (allocation, policy_status)) ;;
  let '(allocation, policy_status) := branch in
  let allocation := if gtb allocation tvg then tvg else allocation in
  let elite_surplus := sub tvg allocation in
  ret (mkResult labor_val auto_val allocation elite_surplus policy_status).

(** two calls in a row on the same object *)
Definition calculate_twice (self : addr) (jobs_available tvg : float)
    (use_dividend use_stabilization : bool) : M (AllocationResult * AllocationResult) :=
  r1 <- call_calculate self jobs_available tvg use_dividend use_stabilization ;;
  r2 <- call_calculate self jobs_available tvg use_dividend use_stabilization ;;
  ret (r1, r2).

(** [sim = MarkoEconomicSim(population, qlt); sim.calculate(...)], lines 54
    and 57 of the renderer, for the new object [sim] *)
Definition construct_and_calculate (sim : addr) (population qlt jobs tvg : float)
    (use_div use_stab : bool) : M AllocationResult :=
  call_init sim population qlt ;;
  call_calculate sim jobs tvg use_div use_stab.

End Py.

(** ** The renderer: [draw_system] *)

Module Render.

(** [max_val = 3000; scale = 25 / max_val] *)
Definition max_val : Z := 3000.
Definition scale : float := div (of_Z 25) (of_Z max_val).

(** lines 85-86 of [draw_arrow]: the tail width handed to the arrow patch *)
Definition arrow_width (value : float) : float :=
  let width := mul value scale in
  if ltb width f1 then f1 else width.

Record Arrow := mkArrow {
  a_from : Z * Z;
  a_to : Z * Z;
  a_tail_width : float;
  a_color : string
}.

Definition draw_arrow (x1 y1 x2 y2 : Z) (value : float) (color : string) : Arrow :=
  mkArrow (x1, y1) (x2, y2) (arrow_width value) color.

(** the part of the figure that is computed from the inputs: the status, the
    fill level, the threshold marker, the four arrows and the two captions;
    the fixed boxes and the labels that only print a number are left out *)
Record Figure := mkFigure {
  fig_data : AllocationResult;
  fig_is_stable : bool;
  fig_status_color : string;
  fig_status_text : string;
  fig_fill_height : float;
  fig_qlt_h : float;
  fig_arrows : list Arrow;
  fig_title : string;
  fig_policy_line : string
}.

Definition draw_system (tvg jobs population qlt : float) (policy : string) : Figure :=
  let sim := mkSim qlt population in
  let use_div := String.eqb policy "National Dividend" in
  let use_stab := String.eqb policy "Stabilization Fund" in
  let data := calculate sim jobs tvg use_div use_stab in
  let is_stable := geb (r_public data) qlt in
  let status_color := if is_stable then "#2ecc71"%string else "#e74c3c"%string in
  let status_text := if is_stable then "STABLE"%string else "COLLAPSE"%string in
  let public_box_y := of_Z 15 in
  let fill_percent := PyFloat.min f1 (div (r_public data) f1500) in
  let fill_height := mul (of_Z 20) fill_percent in
  let qlt_percent := PyFloat.min f1 (div qlt f1500) in
  let qlt_h := add public_box_y (mul (of_Z 20) qlt_percent) in
  mkFigure data is_stable status_color status_text fill_height qlt_h
    [ draw_arrow 21 70 41 55 (r_labor data) "#3498db";
      draw_arrow 21 30 41 45 (r_auto data) "#9b59b6";
      draw_arrow 59 55 79 70 (r_elites data) "#95a5a6";
      draw_arrow 59 45 79 25 (r_public data) status_color ]
    ("SYSTEM STATUS: " ++ status_text)
    ("Active Policy: " ++ r_policy data).

End Render.

(** ** The dashboard: the values its two sliders can take

    [slider("Total Value ($B)", 500, 3000, 1500, 50)] and
    [slider("Jobs (Millions)", 0.0, 20.0, 16.5, 0.5)] *)

Module Dashboard.

Definition slider_tvg : list float :=
  map (fun k => of_Z (500 + 50 * Z.of_nat k)) (seq 0 51).

Definition slider_jobs : list float :=
  map (fun k => div (of_Z (Z.of_nat k)) (of_Z 2)) (seq 0 41).

(** [labor + automation == tvg] for the labor of [jobs] people, checked on
    every pair of slider values *)
Definition sliders_sum_exact : bool :=
  forallb (fun tvg =>
    forallb (fun jobs =>
      let labor := if gtb (mul jobs f90) tvg then tvg else mul jobs f90 in
      eqb (add labor (sub tvg labor)) tvg) slider_jobs) slider_tvg.

End Dashboard.

(** ** Sample values *)

Module Samples.

(** [16.5], [0.25] *)
Definition f16_5 : float := Eval vm_compute in div (of_Z 33) (of_Z 2).
Definition f0_25 : float := Eval vm_compute in div (of_Z 1) (of_Z 4).
(** [1e307] *)
Definition f1e307 : float := Eval vm_compute in of_Z (10 ^ 307).
(** [9007199254740991.0], that is [2^53 - 1] *)
Definition f2p53m1 : float := Eval vm_compute in of_Z (2 ^ 53 - 1).
(** the two doubles after [1.5]: [1.5000000000000002] and [1.5000000000000004] *)
Definition f1_5a : float := S754_finite false 6755399441055745 (-52).
Definition f1_5b : float := S754_finite false 6755399441055746 (-52).
(** the dashboard's defaults: threshold 667, population 18.0 *)
Definition default_sim : MarkoEconomicSim := mkSim (of_Z 667) (of_Z 18).
(** the heap after [MarkoEconomicSim(18.0, 667)] has made object 0 *)
Definition default_store : Py.Store :=
  snd (Py.call_init 0%nat (of_Z 18) (of_Z 667) Py.empty).

End Samples.

(** ** Vocabulary of the proofs

    Integer counterparts of the rounding machinery of [SpecFloat]. *)

Module FloatSpec.

(** the mantissa of [m * 2^e] once written with the exponent [ez <= e] *)
Definition aligned (m : positive) (e ez : Z) : Z := Z.pos m * 2 ^ (e - ez).

(** [m / 2^k] rounded to the nearest integer, ties to even *)
Definition rne_div (m k : Z) : Z :=
  let q := m / 2 ^ k in
  let r := m mod 2 ^ k in
  match 2 * r ?= 2 ^ k with
  | Lt => q
  | Gt => q + 1
  | Eq => if Z.even q then q else q + 1
  end.

(** the rounding of [m * 2^e], as arithmetic: the mantissa and exponent
    [binary_round_aux] arrives at before it looks at the exponent range *)
Definition round_core (m e : Z) : Z * Z :=
  let F := fexp prec emax (Zdigits2 m + e) in
  let q := rne_div m (F - e) in
  if F <? fexp prec emax (Zdigits2 q + F) then (q / 2, F + 1) else (q, F).

Definition pack (s : bool) (me : Z * Z) : float :=
  match fst me with
  | 0 => S754_zero s
  | Z.pos p => if snd me <=? emax - prec then S754_finite s p (snd me) else S754_infinity s
  | Z.neg _ => S754_nan
  end.

(** a canonical pair: what [round_core] returns *)
Definition canon (r : Z * Z) : Prop :=
  (fst r = 0 /\ snd r = -1074) \/
  (0 < fst r /\ fexp prec emax (Zdigits2 (fst r) + snd r) = snd r).

(** the record [mrs] is [m] shifted right by [k] bits: quotient, round bit
    (the last bit shifted out) and sticky bit (any earlier bit shifted out) *)
Definition shr_inv (m k : Z) (mrs : shr_record) : Prop :=
  shr_m mrs = m / 2 ^ k /\
  shr_r mrs = (if k =? 0 then false else Z.odd (m / 2 ^ (k - 1))) /\
  shr_s mrs = (if k =? 0 then false else negb (m mod 2 ^ (k - 1) =? 0)).

(** the shape of a rounded result: never a NaN, the sign is the one asked for,
    and a finite result is a well-formed binary64 value *)
Inductive rounded (s : bool) : float -> Prop :=
  | rounded_zero : rounded s (S754_zero s)
  | rounded_inf : rounded s (S754_infinity s)
  | rounded_fin m e : bounded prec emax m e = true -> rounded s (S754_finite s m e).

(** a key whose lexicographic order is the order of the floats *)
Definition key (x : float) : Z * Z * Z :=
  match x with
  | S754_nan => (0, 0, 0)
  | S754_zero _ => (0, 0, 0)
  | S754_infinity true => (-2, 0, 0)
  | S754_infinity false => (2, 0, 0)
  | S754_finite true m e => (-1, - e, - Z.pos m)
  | S754_finite false m e => (1, e, Z.pos m)
  end.

Definition lex_le (k1 k2 : Z * Z * Z) : Prop :=
  let '(a1, b1, c1) := k1 in
  let '(a2, b2, c2) := k2 in
  a1 < a2 \/ (a1 = a2 /\ (b1 < b2 \/ (b1 = b2 /\ c1 <= c2))).

Definition lex_lt (k1 k2 : Z * Z * Z) : Prop :=
  let '(a1, b1, c1) := k1 in
  let '(a2, b2, c2) := k2 in
  a1 < a2 \/ (a1 = a2 /\ (b1 < b2 \/ (b1 = b2 /\ c1 < c2))).

(** the clamp of the program, [if a > t: a = t] *)
Definition clamp (t a : float) : float := if gtb a t then t else a.

(** the value of a finite binary64 number, counted in units of [2^-1074]
    (the least positive value): an integer *)
Definition units (x : float) : option Z :=
  match x with
  | S754_zero _ => Some 0
  | S754_finite s m e => Some (cond_Zopp s (Z.pos m * 2 ^ (e + 1074)))
  | _ => None
  end.

(** [t - l] is computed without rounding: the binary64 difference is the
    difference of the values *)
Definition exact_sub (t l : float) : bool :=
  match units t, units l, units (sub t l) with
  | Some a, Some b, Some c => c =? a - b
  | _, _, _ => false
  end.

End FloatSpec.

Import FloatSpec.

(** * Properties *)

(** ** The order of binary64 values

    [SFcompare] is a lexicographic comparison of sign, exponent and mantissa;
    what follows needs no well-formedness of the operands. *)

Module FloatOrder.

Lemma compare_cont_antisym (p q : positive) :
  Pos.compare_cont Eq q p = CompOpp (Pos.compare_cont Eq p q).
Proof. exact (Pos.compare_antisym p q). Qed.

Lemma compare_antisym (x y : float) :
  SFcompare y x = option_map CompOpp (SFcompare x y).
Proof.
  destruct x as [sx|sx| |sx mx ex], y as [sy|sy| |sy my ey]; simpl;
    try reflexivity;
    try (destruct sx; reflexivity); try (destruct sy; reflexivity);
    try (destruct sx, sy; reflexivity).
  destruct sx, sy; simpl; try reflexivity;
    rewrite (Z.compare_antisym ex ey);
    destruct (ex ?= ey); simpl; try reflexivity;
    rewrite (compare_cont_antisym mx my);
    destruct (Pos.compare_cont Eq mx my); reflexivity.
Qed.

Lemma compare_nan (x y : float) :
  is_nan x = false -> is_nan y = false -> exists c, SFcompare x y = Some c.
Proof.
  destruct x, y; simpl; intros; try discriminate; eauto.
Qed.

Lemma compare_refl (x : float) : is_nan x = false -> SFcompare x x = Some Eq.
Proof.
  destruct x as [s|s| |s m e]; simpl; intros H; try discriminate; try reflexivity.
  - destruct s; reflexivity.
  - destruct s; rewrite Z.compare_refl;
      change (Pos.compare_cont Eq m m) with (Pos.compare m m);
      rewrite Pos.compare_refl; reflexivity.
Qed.

(** [not (y < x)] is [x <= y] away from NaN *)
Lemma not_ltb_leb (x y : float) :
  is_nan x = false -> is_nan y = false -> ltb y x = false -> leb x y = true.
Proof.
  intros Hx Hy. unfold ltb, leb, SFltb, SFleb.
  rewrite (compare_antisym x y).
  destruct (compare_nan x y Hx Hy) as [c ->]. destruct c; simpl; congruence.
Qed.

Lemma leb_refl (x : float) : is_nan x = false -> leb x x = true.
Proof. intros H. unfold leb, SFleb. now rewrite compare_refl. Qed.

Lemma ltb_not_nan (x y : float) : ltb x y = true -> is_nan x = false /\ is_nan y = false.
Proof. destruct x, y; simpl; intros; split; try reflexivity; discriminate. Qed.

Lemma leb_not_nan (x y : float) : leb x y = true -> is_nan x = false /\ is_nan y = false.
Proof. destruct x, y; simpl; intros; split; try reflexivity; discriminate. Qed.

(** [x >= y] excludes [x < y] *)
Lemma leb_not_ltb (x y : float) : leb y x = true -> ltb x y = false.
Proof.
  unfold ltb, leb, SFltb, SFleb. rewrite (compare_antisym y x).
  destruct (SFcompare y x) as [[ | | ]|]; simpl; congruence.
Qed.

Lemma compare_key (x y : float) :
  is_nan x = false -> is_nan y = false ->
  (SFcompare x y = Some Lt <-> lex_lt (key x) (key y)) /\
  (SFcompare x y = Some Eq <-> key x = key y).
Proof.
  intros Nx Ny.
  destruct x as [sx|sx| |sx mx ex]; try discriminate;
    destruct y as [sy|sy| |sy my ey]; try discriminate;
    try (destruct sx); try (destruct sy); simpl;
    try (split; split; intros H; try discriminate; try reflexivity; try lia;
         inversion H; lia).
  - change (Pos.compare_cont Eq mx my) with (Z.pos mx ?= Z.pos my).
    destruct (Z.compare_spec ex ey) as [He|He|He];
      destruct (Z.compare_spec (Z.pos mx) (Z.pos my)) as [Hm|Hm|Hm]; simpl;
      split; split; intros K; try discriminate; try reflexivity; try lia;
      try (inversion K; lia); try (f_equal; f_equal; lia).
  - change (Pos.compare_cont Eq mx my) with (Z.pos mx ?= Z.pos my).
    destruct (Z.compare_spec ex ey) as [He|He|He];
      destruct (Z.compare_spec (Z.pos mx) (Z.pos my)) as [Hm|Hm|Hm]; simpl;
      split; split; intros K; try discriminate; try reflexivity; try lia;
      try (inversion K; lia); try (f_equal; f_equal; lia).
Qed.

Lemma ltb_key (x y : float) :
  is_nan x = false -> is_nan y = false -> (ltb x y = true <-> lex_lt (key x) (key y)).
Proof.
  intros Nx Ny. destruct (compare_key x y Nx Ny) as [L _].
  unfold ltb, SFltb. rewrite <- L.
  destruct (SFcompare x y) as [[ | | ]|]; split; intros H; congruence.
Qed.

Lemma leb_key (x y : float) :
  is_nan x = false -> is_nan y = false -> (leb x y = true <-> lex_le (key x) (key y)).
Proof.
  intros Nx Ny. destruct (compare_key x y Nx Ny) as [L E].
  assert (K : lex_le (key x) (key y) <-> lex_lt (key x) (key y) \/ key x = key y).
  { destruct (key x) as [[a1 b1] c1], (key y) as [[a2 b2] c2]. unfold lex_le, lex_lt.
    split.
    - intros H. destruct (Z.eq_dec a1 a2), (Z.eq_dec b1 b2), (Z.eq_dec c1 c2);
        try (left; lia). right. congruence.
    - intros [H|H]; [lia|]. inversion H. lia. }
  rewrite K, <- L, <- E. unfold leb, SFleb.
  destruct (SFcompare x y) as [[ | | ]|]; split; intros H; try congruence; auto;
    destruct H; congruence.
Qed.

Lemma ltb_leb_trans (x y z : float) : ltb x y = true -> leb y z = true -> leb x z = true.
Proof.
  intros H1 H2.
  destruct (ltb_not_nan x y H1) as [Nx Ny].
  destruct (leb_not_nan y z H2) as [_ Nz].
  apply ltb_key in H1; try assumption. apply leb_key in H2; try assumption.
  apply leb_key; try assumption.
  destruct (key x) as [[a1 b1] c1], (key y) as [[a2 b2] c2], (key z) as [[a3 b3] c3].
  unfold lex_le, lex_lt in *. lia.
Qed.

Lemma leb_trans (x y z : float) : leb x y = true -> leb y z = true -> leb x z = true.
Proof.
  intros H1 H2.
  destruct (leb_not_nan x y H1) as [Nx Ny].
  destruct (leb_not_nan y z H2) as [_ Nz].
  apply leb_key in H1; try assumption. apply leb_key in H2; try assumption.
  apply leb_key; try assumption.
  destruct (key x) as [[a1 b1] c1], (key y) as [[a2 b2] c2], (key z) as [[a3 b3] c3].
  unfold lex_le in *. lia.
Qed.

(** the clamp [if a > t: a = t] is monotone in [a] *)
Lemma clamp_mono (t a b : float) : leb a b = true -> leb (clamp t a) (clamp t b) = true.
Proof.
  intros L. destruct (leb_not_nan a b L) as [Na Nb].
  unfold clamp, gtb. fold (ltb t a). fold (ltb t b).
  destruct (ltb t a) eqn:Ta; destruct (ltb t b) eqn:Tb.
  - apply leb_refl. apply (ltb_not_nan t a Ta).
  - apply (ltb_leb_trans t a b); assumption.
  - apply not_ltb_leb; try assumption. apply (ltb_not_nan t b Tb).
  - assumption.
Qed.


End FloatOrder.

(** ** Rounding to binary64, step by step *)

Module Rounding.

Lemma digits2_size (p : positive) : digits2_pos p = Pos.size p.
Proof. induction p; simpl; congruence. Qed.

Lemma Zdigits2_log2 (m : Z) : 0 < m -> Zdigits2 m = Z.log2 m + 1.
Proof.
  destruct m as [|p|p]; try lia. intros _. simpl.
  rewrite digits2_size. destruct p; simpl; lia.
Qed.

Lemma Zdigits2_bounds (m : Z) : 0 < m -> 2 ^ (Zdigits2 m - 1) <= m < 2 ^ Zdigits2 m.
Proof.
  intros H. rewrite Zdigits2_log2 by assumption.
  replace (Z.log2 m + 1 - 1) with (Z.log2 m) by lia.
  replace (Z.log2 m + 1) with (Z.succ (Z.log2 m)) by lia.
  apply Z.log2_spec; assumption.
Qed.

Lemma Zdigits2_unique (m k : Z) : 2 ^ (k - 1) <= m < 2 ^ k -> 0 < k -> Zdigits2 m = k.
Proof.
  intros H Hk. assert (0 < m) by (pose proof (Z.pow_pos_nonneg 2 (k - 1)); lia).
  rewrite Zdigits2_log2 by assumption.
  rewrite (Z.log2_unique m (k - 1)); try lia.
  replace (Z.succ (k - 1)) with k by lia. assumption.
Qed.

Lemma Zdigits2_pos (m : Z) : 0 < m -> 0 < Zdigits2 m.
Proof. intros H. rewrite Zdigits2_log2 by assumption. pose proof (Z.log2_nonneg m). lia. Qed.

Lemma Zdigits2_div_pow2 (m n : Z) :
  0 < m -> 0 <= n -> 0 < m / 2 ^ n -> Zdigits2 (m / 2 ^ n) = Zdigits2 m - n.
Proof.
  intros Hm Hn Hq. rewrite !Zdigits2_log2 by assumption.
  rewrite <- Z.shiftr_div_pow2 by assumption.
  rewrite Z.log2_shiftr by assumption.
  assert (n <= Z.log2 m).
  { apply Z.log2_le_pow2; try assumption.
    destruct (Z.le_gt_cases (2 ^ n) m) as [L|L]; [assumption|].
    rewrite Z.div_small in Hq by lia. lia. }
  lia.
Qed.

Lemma div_pow2_zero (m n : Z) : 0 < m -> 0 <= n -> m / 2 ^ n = 0 -> Zdigits2 m <= n.
Proof.
  intros Hm Hn Hq.
  assert (m < 2 ^ n).
  { apply Z.div_small_iff in Hq; [|pose proof (Z.pow_pos_nonneg 2 n); lia]. lia. }
  rewrite Zdigits2_log2 by assumption.
  assert (Z.log2 m < n) by (apply Z.log2_lt_pow2; assumption). lia.
Qed.

(** shifting *)
Lemma shr_1_m (mrs : shr_record) : 0 <= shr_m mrs -> shr_m (shr_1 mrs) = shr_m mrs / 2.
Proof.
  destruct mrs as [m r s]. simpl. intros H.
  destruct m as [|p|p]; try lia; [reflexivity|].
  destruct p; simpl.
  - rewrite Pos2Z.inj_xI. apply (Z.div_unique _ 2 _ 1); lia.
  - rewrite Pos2Z.inj_xO. apply (Z.div_unique _ 2 _ 0); lia.
  - reflexivity.
Qed.

Lemma iter_shr_1_m (p : positive) : forall mrs,
  0 <= shr_m mrs -> shr_m (iter_pos shr_1 p mrs) = shr_m mrs / 2 ^ Zpos p.
Proof.
  induction p as [p IH|p IH|]; intros mrs H; simpl iter_pos.
  - assert (H1 : 0 <= shr_m (shr_1 mrs)) by (rewrite shr_1_m by assumption; apply Z.div_pos; lia).
    rewrite IH by (rewrite IH by assumption; apply Z.div_pos; [assumption|apply Z.pow_pos_nonneg; lia]).
    rewrite IH by assumption. rewrite shr_1_m by assumption.
    rewrite !Z.div_div by (try apply Z.pow_pos_nonneg; lia).
    f_equal. replace (Z.pos p~1) with (1 + Z.pos p + Z.pos p) by lia.
    rewrite (Z.pow_add_r 2 (1 + Z.pos p) (Z.pos p)), (Z.pow_add_r 2 1 (Z.pos p)) by lia. lia.
  - rewrite IH by (rewrite IH by assumption; apply Z.div_pos; [assumption|apply Z.pow_pos_nonneg; lia]).
    rewrite IH by assumption.
    rewrite !Z.div_div by (try apply Z.pow_pos_nonneg; lia).
    f_equal. replace (Z.pos p~0) with (Z.pos p + Z.pos p) by lia.
    rewrite (Z.pow_add_r 2 (Z.pos p) (Z.pos p)) by lia. lia.
  - rewrite shr_1_m by assumption. reflexivity.
Qed.

Lemma fexp_eq (e : Z) : fexp prec emax e = Z.max (e - 53) (-1074).
Proof. reflexivity. Qed.

Lemma Zdigits2_nonneg (m : Z) : 0 <= Zdigits2 m.
Proof. destruct m; simpl; lia. Qed.

Lemma Zdigits2_le (m m' : Z) : 0 < m -> m <= m' -> Zdigits2 m <= Zdigits2 m'.
Proof.
  intros H L. rewrite !Zdigits2_log2 by lia.
  pose proof (Z.log2_le_mono m m' L). lia.
Qed.

Lemma shr_record_of_loc_m (m : Z) (l : location) : shr_m (shr_record_of_loc m l) = m.
Proof. destruct l as [|[ | | ]]; reflexivity. Qed.

(** the mantissa and the exponent after [shr_fexp] *)
Lemma shr_fexp_spec (m e : Z) (l : location) :
  0 <= m ->
  let n := fexp prec emax (Zdigits2 m + e) - e in
  snd (shr_fexp prec emax m e l) = (if 0 <? n then e + n else e) /\
  shr_m (fst (shr_fexp prec emax m e l)) = if 0 <? n then m / 2 ^ n else m.
Proof.
  intros Hm n. unfold shr_fexp. fold n. unfold shr.
  destruct n as [|p|p] eqn:En; simpl fst; simpl snd.
  - split; [reflexivity|apply shr_record_of_loc_m].
  - split; [reflexivity|].
    rewrite iter_shr_1_m by (rewrite shr_record_of_loc_m; assumption).
    now rewrite shr_record_of_loc_m.
  - split; [reflexivity|apply shr_record_of_loc_m].
Qed.

Lemma round_nearest_even_bounds (m : Z) (l : location) :
  m <= round_nearest_even m l <= m + 1.
Proof.
  destruct l as [|[ | | ]]; simpl; try lia. destruct (Z.even m); lia.
Qed.

(** what one [shr_fexp] step establishes: the exponent is the canonical one of
    the mantissa it returns, or the least exponent if that mantissa is 0 *)
Lemma shr_fexp_canonical (m e : Z) (l : location) :
  0 <= m -> e <= fexp prec emax (Zdigits2 m + e) ->
  let m1 := shr_m (fst (shr_fexp prec emax m e l)) in
  let e1 := snd (shr_fexp prec emax m e l) in
  0 <= m1 /\ (if 0 <? m1 then fexp prec emax (Zdigits2 m1 + e1) = e1 else e1 = -1074).
Proof.
  intros Hm He m1 e1.
  destruct (shr_fexp_spec m e l Hm) as [E1 E2].
  assert (Ee : e1 = if 0 <? fexp prec emax (Zdigits2 m + e) - e then e + (fexp prec emax (Zdigits2 m + e) - e) else e)
    by exact E1.
  fold m1 in E2. clearbody m1 e1. clear E1.
  set (n := fexp prec emax (Zdigits2 m + e) - e) in *.
  assert (Hn : 0 <= n) by (unfold n; lia).
  pose proof (Zdigits2_nonneg m) as Hd.
  destruct (Z.ltb_spec 0 n) as [Hpos|Hz].
  - (* a real shift *)
    assert (H2 : 0 < 2 ^ n) by (apply Z.pow_pos_nonneg; lia).
    assert (H1 : 0 <= m1) by (subst m1; apply Z.div_pos; lia).
    split; [assumption|].
    destruct (Z.ltb_spec 0 m1) as [Hm1|Hm1].
    + assert (0 < m) by (destruct (Z.eq_dec m 0) as [->|]; [rewrite Z.div_0_l in E2 by lia; lia|lia]).
      assert (Zdigits2 m1 = Zdigits2 m - n) by (subst m1; apply Zdigits2_div_pow2; lia).
      subst e1. replace (Zdigits2 m1 + (e + n)) with (Zdigits2 m + e) by lia. unfold n. lia.
    + assert (m1 = 0) by lia.
      destruct (Z.eq_dec m 0) as [->|Hne].
      * simpl in n. unfold n in *. rewrite fexp_eq in *. lia.
      * assert (Zdigits2 m <= n) by (apply div_pow2_zero; lia).
        unfold n in *. rewrite fexp_eq in *. lia.
  - assert (n = 0) by lia. subst m1 e1. split; [assumption|].
    destruct (Z.ltb_spec 0 m) as [Hm1|Hm1].
    + unfold n in *. lia.
    + assert (m = 0) by lia. subst m. simpl in n. unfold n in *. rewrite fexp_eq in *. lia.
Qed.

Lemma binary_round_aux_rounded (s : bool) (m e : Z) (l : location) :
  0 <= m -> e <= fexp prec emax (Zdigits2 m + e) ->
  rounded s (binary_round_aux prec emax s m e l).
Proof.
  intros Hm He. unfold binary_round_aux.
  destruct (shr_fexp_canonical m e l Hm He) as [H1 C1].
  destruct (shr_fexp prec emax m e l) as [mrs1 e1]. simpl fst in *. simpl snd in *.
  set (m1 := shr_m mrs1) in *.
  pose proof (round_nearest_even_bounds m1 (loc_of_shr_record mrs1)) as Hr.
  set (m2 := round_nearest_even m1 (loc_of_shr_record mrs1)) in *. clearbody m2.
  assert (Hm2 : 0 <= m2) by lia.
  assert (He2 : e1 <= fexp prec emax (Zdigits2 m2 + e1)).
  { destruct (Z.ltb_spec 0 m1) as [P|P].
    - pose proof (Zdigits2_le m1 m2 P (proj1 Hr)). rewrite fexp_eq in *. lia.
    - rewrite fexp_eq. lia. }
  destruct (shr_fexp_canonical m2 e1 loc_Exact Hm2 He2) as [H3 C3].
  destruct (shr_fexp prec emax m2 e1 loc_Exact) as [mrs2 e2]. simpl fst in *. simpl snd in *.
  destruct (shr_m mrs2) as [|m3|m3] eqn:E3.
  - constructor.
  - destruct (Z.leb_spec e2 (emax - prec)) as [L|L]; [|constructor].
    constructor. unfold bounded, canonical_mantissa.
    assert (C3' : fexp prec emax (Zdigits2 (Z.pos m3) + e2) = e2) by exact C3.
    change (Z.pos (digits2_pos m3)) with (Zdigits2 (Z.pos m3)).
    rewrite C3', Z.eqb_refl. simpl. apply Z.leb_le. assumption.
  - lia.
Qed.

Lemma iter_xO (d m : positive) : Z.pos (Pos.iter xO m d) = Z.pos m * 2 ^ Z.pos d.
Proof.
  induction d as [|d IH] using Pos.peano_ind.
  - simpl. lia.
  - rewrite Pos.iter_succ, Pos2Z.inj_xO, IH, Pos2Z.inj_succ, Z.pow_succ_r by lia. lia.
Qed.

Lemma Zdigits2_mul_pow2 (m d : Z) : 0 < m -> 0 <= d -> Zdigits2 (m * 2 ^ d) = Zdigits2 m + d.
Proof.
  intros Hm Hd. assert (0 < 2 ^ d) by (apply Z.pow_pos_nonneg; lia).
  rewrite !Zdigits2_log2 by lia.
  rewrite Z.log2_mul_pow2 by lia. lia.
Qed.

Lemma shl_align_spec (mx : positive) (ex ex' : Z) :
  snd (shl_align mx ex ex') = Z.min ex ex' /\
  Z.pos (fst (shl_align mx ex ex')) = Z.pos mx * 2 ^ (ex - Z.min ex ex').
Proof.
  unfold shl_align. destruct (ex' - ex) as [|d|d] eqn:E; simpl fst; simpl snd.
  - replace (Z.min ex ex') with ex by lia. rewrite Z.sub_diag. simpl. lia.
  - replace (Z.min ex ex') with ex by lia. rewrite Z.sub_diag. simpl. lia.
  - replace (Z.min ex ex') with ex' by lia. rewrite iter_xO.
    replace (ex - ex') with (Z.pos d) by lia. tauto.
Qed.

Lemma binary_round_rounded (s : bool) (m : positive) (e : Z) :
  rounded s (binary_round prec emax s m e).
Proof.
  unfold binary_round.
  destruct (shl_align_spec m e (fexp prec emax (Z.pos (digits2_pos m) + e))) as [E1 E2].
  destruct (shl_align m e (fexp prec emax (Z.pos (digits2_pos m) + e))) as [mz ez].
  simpl fst in *; simpl snd in *.
  apply binary_round_aux_rounded; [lia|].
  change (Z.pos (digits2_pos m)) with (Zdigits2 (Z.pos m)) in *.
  rewrite E2, Zdigits2_mul_pow2 by lia.
  replace (Zdigits2 (Z.pos m) + (e - Z.min e (fexp prec emax (Zdigits2 (Z.pos m) + e))) + ez)
    with (Zdigits2 (Z.pos m) + e) by lia.
  lia.
Qed.

(** the result of [binary_normalize]: a zero of the given sign, or a rounded
    value with the sign of the integer *)
Lemma binary_normalize_rounded (m e : Z) (sz : bool) :
  rounded (if m =? 0 then sz else m <? 0) (binary_normalize prec emax m e sz).
Proof.
  destruct m as [|p|p]; simpl.
  - constructor.
  - apply binary_round_rounded.
  - apply binary_round_rounded.
Qed.

Lemma rounded_valid (s : bool) (x : float) : rounded s x -> valid x = true.
Proof. destruct 1; simpl; auto. Qed.

Lemma rounded_not_nan (s : bool) (x : float) : rounded s x -> is_nan x = false.
Proof. destruct 1; reflexivity. Qed.

(** a well-formed finite value: its exponent is the canonical one *)
Lemma bounded_canonical (m : positive) (e : Z) :
  bounded prec emax m e = true ->
  fexp prec emax (Zdigits2 (Z.pos m) + e) = e /\ e <= emax - prec.
Proof.
  unfold bounded, canonical_mantissa. intros H.
  apply andb_prop in H. destruct H as [H1 H2].
  apply Z.eqb_eq in H1. apply Z.leb_le in H2. split; assumption.
Qed.

Lemma Zdigits2_mul (a b : Z) : 0 < a -> 0 < b -> Zdigits2 a + Zdigits2 b - 1 <= Zdigits2 (a * b).
Proof.
  intros Ha Hb. rewrite !Zdigits2_log2 by lia.
  pose proof (Z.log2_mul_below a b Ha Hb). lia.
Qed.


Lemma Zdigits2_le_pow (m k : Z) : 0 < m -> 0 <= k -> m < 2 ^ k -> Zdigits2 m <= k.
Proof.
  intros Hm Hk H. rewrite Zdigits2_log2 by assumption.
  assert (Z.log2 m < k) by (apply Z.log2_lt_pow2; assumption). lia.
Qed.


(** an invariant carried through the iterations of a function *)
Lemma iter_pos_invariant {A : Type} (f : A -> A) (P : Z -> A -> Prop) :
  (forall k x, 0 <= k -> P k x -> P (k + 1) (f x)) ->
  forall p k x, 0 <= k -> P k x -> P (k + Z.pos p) (iter_pos f p x).
Proof.
  intros step. induction p as [p IH|p IH|]; intros k x Hk H; simpl iter_pos.
  - replace (k + Z.pos p~1) with (k + 1 + Z.pos p + Z.pos p) by lia.
    apply IH; [lia|]. apply IH; [lia|]. apply step; assumption.
  - replace (k + Z.pos p~0) with (k + Z.pos p + Z.pos p) by lia.
    apply IH; [lia|]. apply IH; assumption.
  - apply step; assumption.
Qed.

Lemma shr_1_r (mrs : shr_record) : 0 <= shr_m mrs -> shr_r (shr_1 mrs) = Z.odd (shr_m mrs).
Proof.
  destruct mrs as [m r s]. simpl. intros H.
  destruct m as [|p|p]; try lia; [reflexivity|]. destruct p; reflexivity.
Qed.

Lemma shr_1_s (mrs : shr_record) : shr_s (shr_1 mrs) = shr_r mrs || shr_s mrs.
Proof.
  destruct mrs as [m r s]. simpl.
  destruct m as [|p|p]; try reflexivity; destruct p; reflexivity.
Qed.

Lemma mod_pow2_succ (m k : Z) : 0 <= k ->
  m mod 2 ^ (k + 1) = m mod 2 ^ k + 2 ^ k * ((m / 2 ^ k) mod 2).
Proof.
  intros Hk. rewrite Z.pow_add_r, Z.pow_1_r by lia.
  apply Z.rem_mul_r; [|lia]. pose proof (Z.pow_pos_nonneg 2 k). lia.
Qed.

Lemma odd_mod2 (q : Z) : q mod 2 = if Z.odd q then 1 else 0.
Proof. rewrite Zmod_odd. reflexivity. Qed.

Lemma shr_inv_step (m k : Z) (mrs : shr_record) :
  0 <= m -> 0 <= k -> shr_inv m k mrs -> shr_inv m (k + 1) (shr_1 mrs).
Proof.
  intros Hm Hk (Im & Ir & Is).
  assert (H2 : 0 < 2 ^ k) by (apply Z.pow_pos_nonneg; lia).
  assert (Hq : 0 <= shr_m mrs) by (rewrite Im; apply Z.div_pos; lia).
  unfold shr_inv. replace (k + 1 - 1) with k by lia.
  replace (k + 1 =? 0) with false by (symmetry; apply Z.eqb_neq; lia).
  repeat split.
  - rewrite shr_1_m, Im by assumption.
    rewrite Z.div_div, Z.pow_add_r, Z.pow_1_r by lia. reflexivity.
  - rewrite shr_1_r, Im by assumption. reflexivity.
  - rewrite shr_1_s, Ir, Is.
    destruct (Z.eqb_spec k 0) as [->|Hk0].
    + simpl. rewrite Z.mod_1_r. reflexivity.
    + pose proof (mod_pow2_succ m (k - 1) ltac:(lia)) as E.
      replace (k - 1 + 1) with k in E by lia.
      rewrite odd_mod2 in E.
      pose proof (Z.mod_pos_bound m (2 ^ (k - 1)) ltac:(apply Z.pow_pos_nonneg; lia)) as B.
      assert (0 < 2 ^ (k - 1)) by (apply Z.pow_pos_nonneg; lia).
      destruct (Z.odd (m / 2 ^ (k - 1))); simpl.
      * symmetry. apply negb_true_iff, Z.eqb_neq. lia.
      * f_equal. rewrite E. f_equal. lia.
Qed.

Lemma shr_inv_init (m : Z) : shr_inv m 0 (shr_record_of_loc m loc_Exact).
Proof. unfold shr_inv. simpl. rewrite Z.div_1_r. auto. Qed.

Lemma shr_inv_iter (m : Z) (p : positive) :
  0 <= m -> shr_inv m (Z.pos p) (iter_pos shr_1 p (shr_record_of_loc m loc_Exact)).
Proof.
  intros Hm.
  apply (iter_pos_invariant shr_1 (fun k mrs => shr_inv m k mrs)
           (fun k x Hk H => shr_inv_step m k x Hm Hk H) p 0); [lia|apply shr_inv_init].
Qed.

(** rounding the shifted record is rounding the quotient to nearest even *)
Lemma round_shr_inv (m k : Z) (mrs : shr_record) :
  0 <= m -> 0 <= k -> shr_inv m k mrs ->
  round_nearest_even (shr_m mrs) (loc_of_shr_record mrs) = rne_div m k.
Proof.
  intros Hm Hk (Im & Ir & Is). unfold rne_div.
  destruct (Z.eqb_spec k 0) as [->|Hk0].
  - destruct mrs as [mm r s]; simpl in *. subst r s. simpl.
    rewrite Z.mod_1_r, Z.div_1_r in *. simpl. assumption.
  - pose proof (mod_pow2_succ m (k - 1) ltac:(lia)) as E.
    replace (k - 1 + 1) with k in E by lia. rewrite odd_mod2 in E.
    pose proof (Z.mod_pos_bound m (2 ^ (k - 1)) ltac:(apply Z.pow_pos_nonneg; lia)) as B.
    assert (P : 2 ^ k = 2 * 2 ^ (k - 1)).
    { replace k with (k - 1 + 1) at 1 by lia. rewrite Z.pow_add_r, Z.pow_1_r by lia. lia. }
    destruct mrs as [mm r s]; cbn [shr_m shr_r shr_s] in *. subst mm r s.
    destruct (Z.odd (m / 2 ^ (k - 1)));
      destruct (Z.eqb_spec (m mod 2 ^ (k - 1)) 0) as [Z0|Z0];
      cbn [negb loc_of_shr_record round_nearest_even].
    + replace (2 * (m mod 2 ^ k) ?= 2 ^ k) with Eq by (symmetry; apply Z.compare_eq_iff; lia).
      reflexivity.
    + replace (2 * (m mod 2 ^ k) ?= 2 ^ k) with Gt by (symmetry; apply Z.compare_gt_iff; lia).
      reflexivity.
    + replace (2 * (m mod 2 ^ k) ?= 2 ^ k) with Lt by (symmetry; apply Z.compare_lt_iff; lia).
      reflexivity.
    + replace (2 * (m mod 2 ^ k) ?= 2 ^ k) with Lt by (symmetry; apply Z.compare_lt_iff; lia).
      reflexivity.
Qed.

Lemma rne_div_0 (m : Z) : rne_div m 0 = m.
Proof. unfold rne_div. rewrite Z.pow_0_r, Z.mod_1_r, Z.div_1_r. reflexivity. Qed.

(** the first step of [binary_round_aux] on an exact input *)
Lemma shr_fexp_round (m e : Z) :
  0 <= m -> e <= fexp prec emax (Zdigits2 m + e) ->
  let mrs := fst (shr_fexp prec emax m e loc_Exact) in
  round_nearest_even (shr_m mrs) (loc_of_shr_record mrs) =
    rne_div m (fexp prec emax (Zdigits2 m + e) - e) /\
  snd (shr_fexp prec emax m e loc_Exact) = fexp prec emax (Zdigits2 m + e).
Proof.
  intros Hm He. unfold shr_fexp, shr.
  set (n := fexp prec emax (Zdigits2 m + e) - e).
  assert (En : fexp prec emax (Zdigits2 m + e) = e + n) by (unfold n; lia).
  destruct n as [|p|p] eqn:E; simpl fst; simpl snd.
  - split; [|lia]. simpl. symmetry. apply rne_div_0.
  - split; [|lia]. apply round_shr_inv; [assumption|lia|]. apply shr_inv_iter; assumption.
  - lia.
Qed.

Lemma rne_div_bounds (m n : Z) : 0 <= n -> m / 2 ^ n <= rne_div m n <= m / 2 ^ n + 1.
Proof.
  intros Hn. unfold rne_div.
  destruct (2 * (m mod 2 ^ n) ?= 2 ^ n); try lia.
  destruct (Z.even (m / 2 ^ n)); lia.
Qed.

Lemma rne_div_mono (m m' n : Z) : 0 <= n -> m <= m' -> rne_div m n <= rne_div m' n.
Proof.
  intros Hn L.
  assert (P : 0 < 2 ^ n) by (apply Z.pow_pos_nonneg; lia).
  pose proof (Z.div_le_mono m m' (2 ^ n) P L) as Q.
  destruct (Z.eq_dec (m / 2 ^ n) (m' / 2 ^ n)) as [E|N].
  - pose proof (Z.div_mod m (2 ^ n) ltac:(lia)) as D.
    pose proof (Z.div_mod m' (2 ^ n) ltac:(lia)) as D'.
    unfold rne_div. rewrite <- E in *.
    destruct (Z.compare_spec (2 * (m mod 2 ^ n)) (2 ^ n));
      destruct (Z.compare_spec (2 * (m' mod 2 ^ n)) (2 ^ n));
      destruct (Z.even (m / 2 ^ n)); lia.
  - pose proof (rne_div_bounds m n Hn). pose proof (rne_div_bounds m' n Hn). lia.
Qed.

Lemma rne_div_scale (m n j : Z) : 0 <= n -> 0 <= j -> rne_div (m * 2 ^ j) (n + j) = rne_div m n.
Proof.
  intros Hn Hj.
  assert (Pn : 0 < 2 ^ n) by (apply Z.pow_pos_nonneg; lia).
  assert (Pj : 0 < 2 ^ j) by (apply Z.pow_pos_nonneg; lia).
  unfold rne_div. rewrite Z.pow_add_r by lia.
  rewrite Z.div_mul_cancel_r by lia.
  rewrite Z.mul_mod_distr_r by lia.
  replace (2 * (m mod 2 ^ n * 2 ^ j) ?= 2 ^ n * 2 ^ j) with (2 * (m mod 2 ^ n) ?= 2 ^ n).
  - reflexivity.
  - destruct (Z.compare_spec (2 * (m mod 2 ^ n)) (2 ^ n)); symmetry.
    + apply Z.compare_eq_iff. nia.
    + apply Z.compare_lt_iff. nia.
    + apply Z.compare_gt_iff. nia.
Qed.

Lemma rne_div_exact (a n : Z) : 0 <= n -> rne_div (a * 2 ^ n) n = a.
Proof.
  intros Hn. assert (Pn : 0 < 2 ^ n) by (apply Z.pow_pos_nonneg; lia).
  unfold rne_div. rewrite Z.div_mul, Z.mod_mul by lia.
  replace (2 * 0 ?= 2 ^ n) with Lt by (symmetry; apply Z.compare_lt_iff; lia).
  reflexivity.
Qed.

(** what the first step leaves: the quotient and its digits *)
Lemma first_step (m e : Z) :
  0 <= m -> e <= fexp prec emax (Zdigits2 m + e) ->
  let F := fexp prec emax (Zdigits2 m + e) in
  let q := rne_div m (F - e) in
  0 <= q /\
  ((q = 0 /\ F = -1074) \/ (0 < q /\ F = fexp prec emax (Zdigits2 q + F)) \/
   (F + 1 = fexp prec emax (Zdigits2 q + F) /\ q = 2 ^ 53 /\ -1074 <= F)).
Proof.
  intros Hm He F q.
  assert (Hn : 0 <= F - e) by (unfold F; lia).
  pose proof (rne_div_bounds m (F - e) Hn) as B. fold q in B.
  destruct (shr_fexp_canonical m e loc_Exact Hm He) as [H1 C1].
  destruct (shr_fexp_spec m e loc_Exact Hm) as [E1 E2].
  rewrite E1, E2 in C1. rewrite E2 in H1. clear E1 E2.
  fold F in C1, H1.
  set (m1 := m / 2 ^ (F - e)) in *.
  assert (Em1 : (if 0 <? F - e then m1 else m) = m1).
  { destruct (Z.ltb_spec 0 (F - e)); [reflexivity|].
    unfold m1. replace (F - e) with 0 by lia. now rewrite Z.pow_0_r, Z.div_1_r. }
  rewrite Em1 in *.
  assert (Ee1 : (if 0 <? F - e then e + (F - e) else e) = F).
  { destruct (Z.ltb_spec 0 (F - e)); lia. }
  rewrite Ee1 in *. clear Em1 Ee1.
  split; [lia|].
  clearbody q m1.
  destruct (0 <? m1) eqn:P0.
  - apply Z.ltb_lt in P0.
    pose proof (Zdigits2_bounds m1 P0) as [L U].
    pose proof (Zdigits2_pos m1 P0) as D1.
    destruct (Z.eq_dec q (2 ^ Zdigits2 m1)) as [Q|Q].
    + assert (Dq : Zdigits2 q = Zdigits2 m1 + 1).
      { apply Zdigits2_unique; [|lia]. rewrite Q.
        replace (Zdigits2 m1 + 1 - 1) with (Zdigits2 m1) by lia.
        rewrite Z.pow_add_r, Z.pow_1_r by lia. lia. }
      rewrite Dq. rewrite fexp_eq in *.
      destruct (Z.eq_dec (Zdigits2 m1) 53) as [D53|D53].
      * right. right. rewrite D53 in *. lia.
      * right. left. lia.
    + assert (Dq : Zdigits2 q = Zdigits2 m1) by (apply Zdigits2_unique; lia).
      right. left. rewrite Dq. lia.
  - apply Z.ltb_ge in P0.
    destruct (Z.eq_dec q 0) as [->|Q]; [left; split; [reflexivity|assumption]|].
    assert (q = 1) by lia. subst q. right. left.
    rewrite C1. split; [lia|reflexivity].
Qed.

Lemma binary_round_aux_exact (s : bool) (m e : Z) :
  0 <= m -> e <= fexp prec emax (Zdigits2 m + e) ->
  binary_round_aux prec emax s m e loc_Exact = pack s (round_core m e).
Proof.
  intros Hm He. unfold binary_round_aux, round_core.
  destruct (shr_fexp_round m e Hm He) as [R1 R2].
  destruct (first_step m e Hm He) as [Hq Cq].
  destruct (shr_fexp prec emax m e loc_Exact) as [mrs1 e1]. simpl fst in *. simpl snd in *.
  rewrite R1. clear R1. subst e1.
  set (F := fexp prec emax (Zdigits2 m + e)) in *.
  set (q := rne_div m (F - e)) in *. clearbody q.
  destruct (shr_fexp_spec q F loc_Exact Hq) as [E1 E2].
  destruct (shr_fexp prec emax q F loc_Exact) as [mrs2 e2]. simpl fst in *. simpl snd in *.
  destruct Cq as [[Q0 _]|[[_ Q1]|(Q2 & Q3 & Q4)]].
  - subst q. simpl Zdigits2 in *.
    assert (shr_m mrs2 = 0) as ->.
    { rewrite E2. destruct (0 <? _); [apply Zdiv_0_l|reflexivity]. }
    unfold pack. destruct (F <? fexp prec emax (0 + F)); reflexivity.
  - rewrite <- Q1 in *. rewrite Z.sub_diag in *. rewrite Z.ltb_irrefl in *.
    subst e2. unfold pack. simpl fst. simpl snd. rewrite E2. reflexivity.
  - rewrite <- Q2 in *. replace (F + 1 - F) with 1 in * by lia.
    replace (F <? F + 1) with true by (symmetry; apply Z.ltb_lt; lia).
    change (0 <? 1) with true in *. subst e2.
    unfold pack. simpl fst. simpl snd. rewrite E2. reflexivity.
Qed.

Lemma canonical_digits (a f : Z) :
  0 < a -> fexp prec emax (Zdigits2 a + f) = f ->
  -1074 <= f /\ a < 2 ^ 53 /\ (-1074 < f -> 2 ^ 52 <= a).
Proof.
  intros Ha C. rewrite fexp_eq in C.
  pose proof (Zdigits2_bounds a Ha) as [L U].
  pose proof (Zdigits2_pos a Ha) as P.
  set (d := Zdigits2 a) in *. clearbody d.
  split; [lia|]. split.
  - assert (2 ^ d <= 2 ^ 53) by (apply Z.pow_le_mono_r; lia). lia.
  - intros He. assert (d = 53) by lia. subst d. exact L.
Qed.

(** the rounded mantissa [a] and exponent [f] of [m * 2^e]: the value is the
    nearest multiple of [2^F], and the pair is canonical *)
Lemma round_core_spec (m e : Z) :
  0 <= m -> e <= fexp prec emax (Zdigits2 m + e) ->
  let F := fexp prec emax (Zdigits2 m + e) in
  let a := fst (round_core m e) in
  let f := snd (round_core m e) in
  F <= f /\ a * 2 ^ (f - F) = rne_div m (F - e) /\
  ((a = 0 /\ f = -1074) \/ (0 < a /\ fexp prec emax (Zdigits2 a + f) = f)).
Proof.
  intros Hm He F a f. unfold a, f, round_core. fold F.
  destruct (first_step m e Hm He) as [Hq Cq]. fold F in Cq.
  set (q := rne_div m (F - e)) in *. clearbody q.
  destruct Cq as [[Q0 F0]|[[Q1 C1]|(Q2 & Q3 & Q4)]].
  - subst q. simpl Zdigits2.
    replace (F <? fexp prec emax (0 + F)) with false
      by (symmetry; apply Z.ltb_ge; rewrite fexp_eq; lia).
    simpl fst. simpl snd. rewrite Z.sub_diag. simpl. split; [lia|]. split; [reflexivity|].
    left. split; [reflexivity|assumption].
  - rewrite <- C1. rewrite Z.ltb_irrefl. simpl fst. simpl snd.
    rewrite Z.sub_diag, Z.pow_0_r. split; [lia|]. split; [lia|].
    right. split; [assumption|]. symmetry. assumption.
  - rewrite <- Q2. replace (F <? F + 1) with true by (symmetry; apply Z.ltb_lt; lia).
    simpl fst. simpl snd. subst q.
    replace (F + 1 - F) with 1 by lia.
    change (2 ^ 53 / 2) with (2 ^ 52).
    split; [lia|]. split; [reflexivity|].
    right. split; [reflexivity|].
    change (Zdigits2 (2 ^ 52)) with 53. rewrite fexp_eq. lia.
Qed.

Lemma magnitude_le (m1 m2 e1 e2 b : Z) :
  0 < m1 -> b <= e1 -> b <= e2 ->
  m1 * 2 ^ (e1 - b) <= m2 * 2 ^ (e2 - b) ->
  Zdigits2 m1 + e1 <= Zdigits2 m2 + e2.
Proof.
  intros H1 B1 B2 L.
  assert (P1 : 0 < 2 ^ (e1 - b)) by (apply Z.pow_pos_nonneg; lia).
  assert (P2 : 0 < 2 ^ (e2 - b)) by (apply Z.pow_pos_nonneg; lia).
  assert (H2 : 0 < m2) by nia.
  pose proof (Zdigits2_le (m1 * 2 ^ (e1 - b)) (m2 * 2 ^ (e2 - b)) ltac:(nia) L) as D.
  rewrite !Zdigits2_mul_pow2 in D by lia. lia.
Qed.

(** rounding is monotone: the order of the exact values is the order of the
    rounded ones, both written with a common exponent [b] *)
Lemma round_core_mono (m1 m2 e1 e2 b : Z) :
  0 < m1 -> b <= e1 -> b <= e2 ->
  e1 <= fexp prec emax (Zdigits2 m1 + e1) -> e2 <= fexp prec emax (Zdigits2 m2 + e2) ->
  m1 * 2 ^ (e1 - b) <= m2 * 2 ^ (e2 - b) ->
  fst (round_core m1 e1) * 2 ^ (snd (round_core m1 e1) - b) <=
  fst (round_core m2 e2) * 2 ^ (snd (round_core m2 e2) - b).
Proof.
  intros H1 B1 B2 C1 C2 L.
  assert (P1 : 0 < 2 ^ (e1 - b)) by (apply Z.pow_pos_nonneg; lia).
  assert (P2 : 0 < 2 ^ (e2 - b)) by (apply Z.pow_pos_nonneg; lia).
  assert (H2 : 0 < m2) by nia.
  pose proof (magnitude_le m1 m2 e1 e2 b H1 B1 B2 L) as M.
  destruct (round_core_spec m1 e1 ltac:(lia) C1) as (F1 & V1 & K1).
  destruct (round_core_spec m2 e2 ltac:(lia) C2) as (F2 & V2 & K2).
  destruct (first_step m1 e1 ltac:(lia) C1) as [Q1 S1].
  destruct (first_step m2 e2 ltac:(lia) C2) as [Q2 S2].
  set (a1 := fst (round_core m1 e1)) in *. set (f1 := snd (round_core m1 e1)) in *.
  set (a2 := fst (round_core m2 e2)) in *. set (f2 := snd (round_core m2 e2)) in *.
  clearbody a1 f1 a2 f2.
  set (G1 := fexp prec emax (Zdigits2 m1 + e1)) in *.
  set (G2 := fexp prec emax (Zdigits2 m2 + e2)) in *.
  assert (G12 : G1 <= G2) by (unfold G1, G2; rewrite !fexp_eq; lia).
  assert (EG1 : -1074 <= G1) by (unfold G1; rewrite fexp_eq; lia).
  set (q1 := rne_div m1 (G1 - e1)) in *. set (q2 := rne_div m2 (G2 - e2)) in *.
  (* the values of the results, on the grid of the first one *)
  assert (W1 : a1 * 2 ^ (f1 - b) = q1 * 2 ^ (G1 - b)).
  { rewrite <- V1. replace (f1 - b) with ((f1 - G1) + (G1 - b)) by lia.
    rewrite Z.pow_add_r by lia. lia. }
  assert (W2 : a2 * 2 ^ (f2 - b) = q2 * 2 ^ (G2 - b)).
  { rewrite <- V2. replace (f2 - b) with ((f2 - G2) + (G2 - b)) by lia.
    rewrite Z.pow_add_r by lia. lia. }
  rewrite W1, W2.
  destruct (Z.eq_dec G1 G2) as [E|N].
  - (* the same grid *)
    assert (q1 <= q2).
    { unfold q1, q2. rewrite <- E.
      rewrite <- (rne_div_scale m1 (G1 - e1) (e1 - b)) by lia.
      rewrite <- (rne_div_scale m2 (G1 - e2) (e2 - b)) by lia.
      replace (G1 - e1 + (e1 - b)) with (G1 - b) by lia.
      replace (G1 - e2 + (e2 - b)) with (G1 - b) by lia.
      apply rne_div_mono; lia. }
    rewrite <- E. assert (0 < 2 ^ (G1 - b)) by (apply Z.pow_pos_nonneg; lia). nia.
  - (* the second value lies in a higher binade *)
    assert (U1 : q1 <= 2 ^ 53).
    { destruct S1 as [[Z1 _]|[[Z1 K]|(_ & Z1 & _)]].
      - fold q1 in Z1. rewrite Z1. lia.
      - fold q1 in K, Z1. symmetry in K.
        destruct (canonical_digits q1 G1 Z1 K) as (_ & U & _). lia.
      - fold q1 in Z1. lia. }
    assert (L2 : 2 ^ 52 <= q2).
    { destruct S2 as [[_ Z2]|[[Z2 K]|(_ & Z2 & _)]].
      - lia.
      - fold q2 in K, Z2. symmetry in K.
        destruct (canonical_digits q2 G2 Z2 K) as (_ & _ & L'). apply L'. lia.
      - fold q2 in Z2. rewrite Z2. change (2 ^ 53) with (2 * 2 ^ 52). lia. }
    assert (P : 2 * 2 ^ (G1 - b) <= 2 ^ (G2 - b)).
    { replace (2 * 2 ^ (G1 - b)) with (2 ^ (G1 - b + 1)) by (rewrite Z.pow_add_r by lia; lia).
      apply Z.pow_le_mono_r; lia. }
    assert (0 < 2 ^ (G1 - b)) by (apply Z.pow_pos_nonneg; lia).
    change (2 ^ 53) with (2 * 2 ^ 52) in U1. nia.
Qed.

End Rounding.

(** ** The arithmetic operations *)

Module FloatArith.

Import Rounding.

Lemma mul_rounded (x y : float) :
  valid x = true -> valid y = true ->
  is_nan (mul x y) = true \/
  exists s, rounded s (mul x y).
Proof.
  intros Vx Vy.
  destruct x as [sx|sx| |sx mx ex], y as [sy|sy| |sy my ey]; simpl;
    try (left; reflexivity);
    try (right; eexists; constructor; fail).
  right. exists (xorb sx sy).
  apply binary_round_aux_rounded; [lia|].
  destruct (bounded_canonical mx ex Vx) as [Cx _].
  destruct (bounded_canonical my ey Vy) as [Cy _].
  pose proof (Zdigits2_mul (Z.pos mx) (Z.pos my) ltac:(lia) ltac:(lia)) as Hd.
  pose proof (Zdigits2_pos (Z.pos mx) ltac:(lia)).
  pose proof (Zdigits2_pos (Z.pos my) ltac:(lia)).
  change (Z.pos (mx * my)) with (Z.pos mx * Z.pos my).
  rewrite fexp_eq in *. lia.
Qed.

Lemma mul_valid (x y : float) : valid x = true -> valid y = true -> valid (mul x y) = true.
Proof.
  intros Vx Vy. destruct (mul_rounded x y Vx Vy) as [H|[s H]].
  - destruct (mul x y); try discriminate; reflexivity.
  - eapply rounded_valid; eassumption.
Qed.

(** the quotient handed to the rounding step by a division *)
Lemma SFdiv_core_binary_spec (m1 m2 : positive) (e1 e2 : Z) :
  let '(q, e', l) := SFdiv_core_binary prec emax (Z.pos m1) e1 (Z.pos m2) e2 in
  0 <= q /\ e' <= fexp prec emax (Zdigits2 q + e').
Proof.
  unfold SFdiv_core_binary.
  set (d1 := Zdigits2 (Z.pos m1)). set (d2 := Zdigits2 (Z.pos m2)).
  set (E := d1 + e1 - (d2 + e2)).
  set (e' := Z.min (fexp prec emax E) (e1 - e2)).
  set (s := e1 - e2 - e').
  set (m' := match s with Z.pos _ => Z.shiftl (Z.pos m1) s | 0 => Z.pos m1 | Z.neg _ => 0 end).
  assert (EE : E = d1 + e1 - (d2 + e2)) by reflexivity.
  assert (Ee' : e' = Z.min (Z.max (E - 53) (-1074)) (e1 - e2)) by reflexivity.
  assert (Es : s = e1 - e2 - e') by reflexivity.
  assert (Hs : 0 <= s) by lia.
  assert (Hm' : m' = Z.pos m1 * 2 ^ s).
  { unfold m'. destruct s as [|p|p];
      [lia | rewrite Z.shiftl_mul_pow2 by lia; reflexivity | lia]. }
  clearbody m'.
  assert (H2s : 0 < 2 ^ s) by (apply Z.pow_pos_nonneg; lia).
  assert (Hm'pos : 0 < m') by (rewrite Hm'; lia).
  assert (Dm' : Zdigits2 m' = d1 + s) by (rewrite Hm'; apply Zdigits2_mul_pow2; lia).
  pose proof (Z.div_eucl_eq m' (Z.pos m2) ltac:(lia)) as Hdiv.
  pose proof (Z.mod_pos_bound m' (Z.pos m2) ltac:(lia)) as Hmod.
  unfold Z.modulo in Hmod.
  destruct (Z.div_eucl m' (Z.pos m2)) as [q r].
  assert (Hq : 0 <= q) by nia.
  split; [assumption|].
  pose proof (Zdigits2_pos (Z.pos m1) ltac:(lia)) as Hd1. fold d1 in Hd1.
  pose proof (Zdigits2_pos (Z.pos m2) ltac:(lia)) as Hd2. fold d2 in Hd2.
  pose proof (Zdigits2_bounds (Z.pos m2) ltac:(lia)) as Bm2. fold d2 in Bm2.
  destruct (Z.eq_dec q 0) as [->|Hq0].
  - (* the quotient is 0: the dividend is below the divisor *)
    assert (m' < Z.pos m2) by lia.
    assert (Zdigits2 m' <= d2) by (apply Zdigits2_le_pow; lia).
    simpl Zdigits2. rewrite fexp_eq. clearbody d1 d2 E e' s. lia.
  - pose proof (Zdigits2_bounds q ltac:(lia)) as Bq.
    assert (m' < 2 ^ (Zdigits2 q + d2)).
    { rewrite Z.pow_add_r by (pose proof (Zdigits2_nonneg q); lia). nia. }
    assert (Zdigits2 m' <= Zdigits2 q + d2)
      by (apply Zdigits2_le_pow; pose proof (Zdigits2_nonneg q); lia).
    rewrite fexp_eq. clearbody d1 d2 E e' s. lia.
Qed.

Lemma div_rounded (x y : float) :
  valid x = true -> valid y = true ->
  is_nan (div x y) = true \/ exists s, rounded s (div x y).
Proof.
  intros Vx Vy.
  destruct x as [sx|sx| |sx mx ex], y as [sy|sy| |sy my ey]; simpl;
    try (left; reflexivity);
    try (right; eexists; constructor; fail).
  right. exists (xorb sx sy).
  pose proof (SFdiv_core_binary_spec mx my ex ey) as H.
  destruct (SFdiv_core_binary prec emax (Z.pos mx) ex (Z.pos my) ey) as [[q e'] l].
  destruct H as [Hq He]. apply binary_round_aux_rounded; assumption.
Qed.

Lemma div_valid (x y : float) : valid x = true -> valid y = true -> valid (div x y) = true.
Proof.
  intros Vx Vy. destruct (div_rounded x y Vx Vy) as [H|[s H]].
  - destruct (div x y); try discriminate; reflexivity.
  - eapply rounded_valid; eassumption.
Qed.

Lemma shl_align_aligned (m : positive) (e ez : Z) :
  ez <= e -> Z.pos (fst (shl_align m e ez)) = aligned m e ez.
Proof.
  intros H. destruct (shl_align_spec m e ez) as [_ E]. rewrite E.
  unfold aligned. now rewrite Z.min_r by assumption.
Qed.

Lemma aligned_pos (m : positive) (e ez : Z) : ez <= e -> 0 < aligned m e ez.
Proof.
  intros H. unfold aligned.
  assert (0 < 2 ^ (e - ez)) by (apply Z.pow_pos_nonneg; lia). lia.
Qed.

(** a well-formed mantissa has at most 53 bits, and exactly 53 above the
    least exponent *)
Lemma bounded_digits (m : positive) (e : Z) :
  bounded prec emax m e = true ->
  -1074 <= e /\ Z.pos m < 2 ^ 53 /\ (-1074 < e -> 2 ^ 52 <= Z.pos m).
Proof.
  intros B. destruct (bounded_canonical m e B) as [C _].
  rewrite fexp_eq in C.
  pose proof (Zdigits2_bounds (Z.pos m) ltac:(lia)) as [L U].
  pose proof (Zdigits2_pos (Z.pos m) ltac:(lia)) as P.
  set (d := Zdigits2 (Z.pos m)) in *. clearbody d.
  split; [lia|]. split.
  - assert (2 ^ d <= 2 ^ 53) by (apply Z.pow_le_mono_r; lia). lia.
  - intros He. assert (d = 53) by lia. subst d. exact L.
Qed.

Lemma aligned_lt (mx my : positive) (ex ey : Z) :
  bounded prec emax mx ex = true -> bounded prec emax my ey = true ->
  ex < ey -> aligned mx ex ex < aligned my ey ex.
Proof.
  intros Bx By H. unfold aligned. rewrite Z.sub_diag, Z.pow_0_r.
  destruct (bounded_digits mx ex Bx) as (Ex & Ux & _).
  destruct (bounded_digits my ey By) as (_ & _ & Ly).
  specialize (Ly ltac:(lia)).
  assert (2 ^ 1 <= 2 ^ (ey - ex)) by (apply Z.pow_le_mono_r; lia).
  change (2 ^ 1) with 2 in *. change (2 ^ 53) with (2 * 2 ^ 52) in Ux. nia.
Qed.

(** on well-formed values the lexicographic comparison of exponent and
    mantissa is the comparison of the aligned mantissas *)
Lemma aligned_compare (mx my : positive) (ex ey : Z) :
  bounded prec emax mx ex = true -> bounded prec emax my ey = true ->
  match ex ?= ey with
  | Lt => Lt
  | Gt => Gt
  | Eq => Pos.compare_cont Eq mx my
  end = (aligned mx ex (Z.min ex ey) ?= aligned my ey (Z.min ex ey)).
Proof.
  intros Bx By. destruct (Z.compare_spec ex ey) as [E|L|G].
  - subst ey. rewrite Z.min_id. unfold aligned. rewrite Z.sub_diag, Z.pow_0_r, !Z.mul_1_r.
    reflexivity.
  - rewrite Z.min_l by lia. symmetry. apply Z.compare_lt_iff.
    apply aligned_lt; assumption.
  - rewrite Z.min_r by lia. symmetry. apply Z.compare_gt_iff.
    apply aligned_lt; assumption.
Qed.

Lemma compare_finite (sx sy : bool) (mx my : positive) (ex ey : Z) :
  bounded prec emax mx ex = true -> bounded prec emax my ey = true ->
  SFcompare (S754_finite sx mx ex) (S754_finite sy my ey) =
  Some (cond_Zopp sx (aligned mx ex (Z.min ex ey)) ?= cond_Zopp sy (aligned my ey (Z.min ex ey))).
Proof.
  intros Bx By. simpl. f_equal.
  pose proof (aligned_compare mx my ex ey Bx By) as H.
  pose proof (aligned_pos mx ex (Z.min ex ey) ltac:(lia)) as Px.
  pose proof (aligned_pos my ey (Z.min ex ey) ltac:(lia)) as Py.
  set (ax := aligned mx ex (Z.min ex ey)) in *.
  set (ay := aligned my ey (Z.min ex ey)) in *. clearbody ax ay.
  destruct sx, sy; simpl.
  - rewrite Z.compare_opp, (Z.compare_antisym ax ay), <- H.
    destruct (ex ?= ey); reflexivity.
  - symmetry. apply Z.compare_lt_iff. lia.
  - symmetry. apply Z.compare_gt_iff. lia.
  - exact H.
Qed.

Lemma leb_zero_rounded (x : float) : rounded false x -> leb pos_zero x = true.
Proof. destruct 1; reflexivity. Qed.

(** [x - y >= 0] as soon as [y <= x] and [x] is finite *)
Lemma sub_nonneg (x y : float) :
  valid x = true -> valid y = true -> is_finite x = true ->
  leb y x = true -> leb pos_zero (sub x y) = true.
Proof.
  intros Vx Vy Fx L.
  destruct x as [sx|sx| |sx mx ex]; try discriminate;
    destruct y as [sy|sy| |sy my ey]; try discriminate.
  - destruct sx, sy; reflexivity.
  - destruct sy; [reflexivity|discriminate].
  - destruct sy; [reflexivity|discriminate].
  - destruct sx; [discriminate|reflexivity].
  - destruct sy; [reflexivity|discriminate].
  - unfold leb, SFleb in L.
    rewrite (compare_finite sy sx my mx ey ex Vy Vx) in L.
    unfold sub, SFsub.
    rewrite !shl_align_aligned by lia.
    rewrite (Z.min_comm ey ex) in L.
    set (ax := cond_Zopp sx (aligned mx ex (Z.min ex ey))) in *.
    set (ay := cond_Zopp sy (aligned my ey (Z.min ex ey))) in *.
    assert (H : ay <= ax).
    { destruct (Z.compare_spec ay ax); try lia; discriminate. }
    pose proof (binary_normalize_rounded (ax - ay) (Z.min ex ey) false) as R.
    replace (if ax - ay =? 0 then false else ax - ay <? 0) with false in R.
    + apply leb_zero_rounded. exact R.
    + destruct (Z.eqb_spec (ax - ay) 0); [reflexivity|].
      symmetry. apply Z.ltb_ge. lia.
Qed.

Lemma sub_valid (x y : float) : valid x = true -> valid y = true -> valid (sub x y) = true.
Proof.
  intros Vx Vy.
  destruct x as [sx|sx| |sx mx ex], y as [sy|sy| |sy my ey]; simpl; try reflexivity;
    try assumption;
    try (destruct sx, sy; reflexivity).
  eapply rounded_valid. apply binary_normalize_rounded.
Qed.

Lemma mul_finite_pre (mx my : positive) (ex ey : Z) :
  bounded prec emax mx ex = true -> bounded prec emax my ey = true ->
  ex + ey <= fexp prec emax (Zdigits2 (Z.pos mx * Z.pos my) + (ex + ey)).
Proof.
  intros Vx Vy.
  destruct (bounded_canonical mx ex Vx) as [Cx _].
  destruct (bounded_canonical my ey Vy) as [Cy _].
  pose proof (Zdigits2_mul (Z.pos mx) (Z.pos my) ltac:(lia) ltac:(lia)) as Hd.
  pose proof (Zdigits2_pos (Z.pos mx) ltac:(lia)).
  pose proof (Zdigits2_pos (Z.pos my) ltac:(lia)).
  rewrite fexp_eq in *. lia.
Qed.

Lemma mul_finite (sx sy : bool) (mx my : positive) (ex ey : Z) :
  bounded prec emax mx ex = true -> bounded prec emax my ey = true ->
  mul (S754_finite sx mx ex) (S754_finite sy my ey) =
  pack (xorb sx sy) (round_core (Z.pos mx * Z.pos my) (ex + ey)).
Proof.
  intros Vx Vy. unfold mul, SFmul.
  change (Z.pos (mx * my)) with (Z.pos mx * Z.pos my).
  apply binary_round_aux_exact; [lia|]. apply mul_finite_pre; assumption.
Qed.

Lemma mul_finite_rounded (sx sy : bool) (mx my : positive) (ex ey : Z) :
  bounded prec emax mx ex = true -> bounded prec emax my ey = true ->
  rounded (xorb sx sy) (mul (S754_finite sx mx ex) (S754_finite sy my ey)).
Proof.
  intros Vx Vy. unfold mul, SFmul.
  change (Z.pos (mx * my)) with (Z.pos mx * Z.pos my).
  apply binary_round_aux_rounded; [lia|]. apply mul_finite_pre; assumption.
Qed.

(** comparisons that the shape of the operands decides *)
Lemma leb_rounded_neg_pos (a b : float) : rounded true a -> rounded false b -> leb a b = true.
Proof. destruct 1; destruct 1; reflexivity. Qed.

Lemma leb_zero_rounded_pos (s : bool) (b : float) : rounded false b -> leb (S754_zero s) b = true.
Proof. destruct 1; reflexivity. Qed.

Lemma leb_rounded_neg_zero (s : bool) (a : float) : rounded true a -> leb a (S754_zero s) = true.
Proof. destruct 1; reflexivity. Qed.

Lemma leb_ninf_rounded (s : bool) (b : float) : rounded s b -> leb (S754_infinity true) b = true.
Proof. destruct 1; destruct s; reflexivity. Qed.

Lemma leb_rounded_pinf (s : bool) (a : float) : rounded s a -> leb a (S754_infinity false) = true.
Proof. destruct 1; destruct s; reflexivity. Qed.

Lemma pack_opp (r : Z * Z) : pack true r = SFopp (pack false r).
Proof.
  unfold pack. destruct (fst r); try reflexivity.
  destruct (snd r <=? emax - prec); reflexivity.
Qed.

Lemma compare_opp (x y : float) : SFcompare (SFopp x) (SFopp y) = SFcompare y x.
Proof.
  destruct x as [sx|sx| |sx mx ex], y as [sy|sy| |sy my ey]; simpl;
    try reflexivity;
    try (destruct sx; reflexivity); try (destruct sy; reflexivity);
    try (destruct sx, sy; reflexivity).
  destruct sx, sy; simpl; try reflexivity;
    rewrite (Z.compare_antisym ex ey);
    destruct (ex ?= ey); simpl; try reflexivity;
    rewrite (FloatOrder.compare_cont_antisym mx my);
    destruct (Pos.compare_cont Eq mx my); reflexivity.
Qed.

Lemma leb_opp (x y : float) : leb (SFopp x) (SFopp y) = leb y x.
Proof. unfold leb, SFleb. now rewrite compare_opp. Qed.

Lemma round_core_canon (m e : Z) :
  0 <= m -> e <= fexp prec emax (Zdigits2 m + e) -> canon (round_core m e).
Proof. intros Hm He. destruct (round_core_spec m e Hm He) as (_ & _ & K). exact K. Qed.

(** the order of canonical pairs is the order of their values *)
Lemma pack_leb (r1 r2 : Z * Z) (b : Z) :
  canon r1 -> canon r2 -> b <= snd r1 -> b <= snd r2 ->
  fst r1 * 2 ^ (snd r1 - b) <= fst r2 * 2 ^ (snd r2 - b) ->
  leb (pack false r1) (pack false r2) = true.
Proof.
  destruct r1 as [a1 f1], r2 as [a2 f2]. unfold canon, pack. simpl fst. simpl snd.
  intros K1 K2 B1 B2 L.
  assert (P1 : 0 < 2 ^ (f1 - b)) by (apply Z.pow_pos_nonneg; lia).
  assert (P2 : 0 < 2 ^ (f2 - b)) by (apply Z.pow_pos_nonneg; lia).
  destruct K1 as [[Z1 E1]|[Z1 C1]].
  - subst a1. destruct K2 as [[Z2 E2]|[Z2 C2]].
    + subst a2. reflexivity.
    + destruct a2 as [|p2|p2]; try lia. destruct (f2 <=? emax - prec); reflexivity.
  - destruct K2 as [[Z2 E2]|[Z2 C2]]; [subst a2; nia|].
    destruct a1 as [|p1|p1]; try lia. destruct a2 as [|p2|p2]; try lia.
    destruct (canonical_digits _ _ Z1 C1) as (Lo1 & U1 & L1).
    destruct (canonical_digits _ _ Z2 C2) as (Lo2 & U2 & L2).
    destruct (Z.leb_spec f2 (emax - prec)) as [R2|R2].
    + destruct (Z.leb_spec f1 (emax - prec)) as [R1|R1].
      * assert (V1 : bounded prec emax p1 f1 = true).
        { unfold bounded, canonical_mantissa.
          change (Z.pos (digits2_pos p1)) with (Zdigits2 (Z.pos p1)).
          rewrite C1, Z.eqb_refl. apply Z.leb_le. assumption. }
        assert (V2 : bounded prec emax p2 f2 = true).
        { unfold bounded, canonical_mantissa.
          change (Z.pos (digits2_pos p2)) with (Zdigits2 (Z.pos p2)).
          rewrite C2, Z.eqb_refl. apply Z.leb_le. assumption. }
        unfold leb, SFleb. rewrite (compare_finite false false p1 p2 f1 f2 V1 V2).
        simpl cond_Zopp. unfold aligned.
        set (ez := Z.min f1 f2).
        assert (Pz : 0 < 2 ^ (ez - b)) by (apply Z.pow_pos_nonneg; unfold ez; lia).
        assert (A1 : Z.pos p1 * 2 ^ (f1 - b) = Z.pos p1 * 2 ^ (f1 - ez) * 2 ^ (ez - b)).
        { rewrite <- Z.mul_assoc, <- Z.pow_add_r by (unfold ez; lia).
          do 2 f_equal. lia. }
        assert (A2 : Z.pos p2 * 2 ^ (f2 - b) = Z.pos p2 * 2 ^ (f2 - ez) * 2 ^ (ez - b)).
        { rewrite <- Z.mul_assoc, <- Z.pow_add_r by (unfold ez; lia).
          do 2 f_equal. lia. }
        rewrite A1, A2 in L.
        destruct (Z.compare_spec (Z.pos p1 * 2 ^ (f1 - ez)) (Z.pos p2 * 2 ^ (f2 - ez)));
          try reflexivity. nia.
      * (* the first overflows and the second does not: impossible *)
        exfalso. specialize (L1 ltac:(unfold emax, prec in *; lia)).
        assert (Q : 2 * 2 ^ (f2 - b) <= 2 ^ (f1 - b)).
        { replace (2 * 2 ^ (f2 - b)) with (2 ^ (f2 - b + 1)) by (rewrite Z.pow_add_r by lia; lia).
          apply Z.pow_le_mono_r; lia. }
        change (2 ^ 53) with (2 * 2 ^ 52) in U2. nia.
    + destruct (f1 <=? emax - prec); reflexivity.
Qed.

(** multiplying by a positive constant is monotone *)
Lemma mul_mono_finite_pos (mx my mc : positive) (ex ey ec : Z) :
  bounded prec emax mx ex = true -> bounded prec emax my ey = true ->
  bounded prec emax mc ec = true ->
  leb (S754_finite false mx ex) (S754_finite false my ey) = true ->
  leb (mul (S754_finite false mx ex) (S754_finite false mc ec))
      (mul (S754_finite false my ey) (S754_finite false mc ec)) = true.
Proof.
  intros Vx Vy Vc L.
  rewrite !mul_finite by assumption. simpl xorb.
  unfold leb, SFleb in L. rewrite (compare_finite false false mx my ex ey Vx Vy) in L.
  simpl cond_Zopp in L. unfold aligned in L.
  set (ez := Z.min ex ey) in *.
  assert (Lx : Z.pos mx * 2 ^ (ex - ez) <= Z.pos my * 2 ^ (ey - ez)).
  { destruct (Z.compare_spec (Z.pos mx * 2 ^ (ex - ez)) (Z.pos my * 2 ^ (ey - ez)));
      try lia; discriminate. }
  pose proof (mul_finite_pre mx mc ex ec Vx Vc) as Px.
  pose proof (mul_finite_pre my mc ey ec Vy Vc) as Py.
  destruct (round_core_spec (Z.pos mx * Z.pos mc) (ex + ec) ltac:(lia) Px) as (Fx & _ & _).
  destruct (round_core_spec (Z.pos my * Z.pos mc) (ey + ec) ltac:(lia) Py) as (Fy & _ & _).
  apply (pack_leb _ _ (ez + ec)).
  - apply round_core_canon; [lia|assumption].
  - apply round_core_canon; [lia|assumption].
  - unfold ez. lia.
  - unfold ez. lia.
  - apply round_core_mono; try assumption; try (unfold ez; lia).
    replace (ex + ec - (ez + ec)) with (ex - ez) by lia.
    replace (ey + ec - (ez + ec)) with (ey - ez) by lia.
    nia.
Qed.

(** multiplication by a positive finite constant is monotone *)
Lemma mul_mono (x y : float) (mc : positive) (ec : Z) :
  valid x = true -> valid y = true -> bounded prec emax mc ec = true ->
  leb x y = true ->
  leb (mul x (S754_finite false mc ec)) (mul y (S754_finite false mc ec)) = true.
Proof.
  intros Vx Vy Vc L.
  destruct x as [sx|sx| |sx mx ex]; try discriminate;
    destruct y as [sy|sy| |sy my ey]; try discriminate.
  - (* zero, zero *) destruct sx, sy; reflexivity.
  - (* zero, infinity *) destruct sx, sy; try discriminate; reflexivity.
  - (* zero, finite *)
    destruct sy; [destruct sx; discriminate|].
    pose proof (mul_finite_rounded false false my mc ey ec Vy Vc) as R.
    change (mul (S754_zero sx) (S754_finite false mc ec)) with (S754_zero (xorb sx false)).
    apply leb_zero_rounded_pos. exact R.
  - (* infinity, zero *) destruct sx, sy; try discriminate; reflexivity.
  - (* infinity, infinity *) destruct sx, sy; try discriminate; reflexivity.
  - (* infinity, finite *)
    destruct sx; [|destruct sy; discriminate].
    change (mul (S754_infinity true) (S754_finite false mc ec)) with (S754_infinity true).
    eapply leb_ninf_rounded. apply (mul_finite_rounded sy false my mc ey ec Vy Vc).
  - (* finite, zero *)
    destruct sx; [|destruct sy; discriminate].
    change (mul (S754_zero sy) (S754_finite false mc ec)) with (S754_zero (xorb sy false)).
    apply leb_rounded_neg_zero. apply (mul_finite_rounded true false mx mc ex ec Vx Vc).
  - (* finite, infinity *)
    destruct sy; [destruct sx; discriminate|].
    change (mul (S754_infinity false) (S754_finite false mc ec)) with (S754_infinity false).
    eapply leb_rounded_pinf. apply (mul_finite_rounded sx false mx mc ex ec Vx Vc).
  - (* finite, finite *)
    destruct sx, sy.
    + rewrite !mul_finite by assumption. simpl xorb. rewrite !pack_opp, leb_opp.
      rewrite <- !(mul_finite false false) by assumption.
      apply mul_mono_finite_pos; try assumption.
      change (S754_finite true mx ex) with (SFopp (S754_finite false mx ex)) in L.
      change (S754_finite true my ey) with (SFopp (S754_finite false my ey)) in L.
      rewrite leb_opp in L. exact L.
    + apply leb_rounded_neg_pos.
      * apply (mul_finite_rounded true false mx mc ex ec Vx Vc).
      * apply (mul_finite_rounded false false my mc ey ec Vy Vc).
    + discriminate.
    + apply mul_mono_finite_pos; assumption.
Qed.

Lemma pow2_split (a b c : Z) : c <= b -> c <= a -> -1074 <= c ->
  2 ^ (a + 1074) = 2 ^ (a - c) * 2 ^ (c + 1074).
Proof. intros. rewrite <- Z.pow_add_r by lia. f_equal. lia. Qed.

Lemma aligned_units (m : positive) (e ez : Z) :
  -1074 <= ez -> ez <= e ->
  Z.pos m * 2 ^ (e + 1074) = aligned m e ez * 2 ^ (ez + 1074).
Proof.
  intros H1 H2. unfold aligned. rewrite <- Z.mul_assoc, <- Z.pow_add_r by lia.
  do 2 f_equal. lia.
Qed.

Lemma cond_Zopp_mul (s : bool) (a b : Z) : cond_Zopp s (a * b) = cond_Zopp s a * b.
Proof. destruct s; simpl; lia. Qed.

(** rounding a value that is a binary64 number returns that number *)
Lemma round_exact (S e : Z) (st : bool) (mt : positive) (et : Z) :
  -1074 <= e -> bounded prec emax mt et = true ->
  S * 2 ^ (e + 1074) = cond_Zopp st (Z.pos mt * 2 ^ (et + 1074)) ->
  binary_normalize prec emax S e false = S754_finite st mt et.
Proof.
  intros He Bt V.
  destruct (bounded_canonical mt et Bt) as [Ct Rt].
  destruct (bounded_digits mt et Bt) as (Et & _ & _).
  assert (Pe : 0 < 2 ^ (e + 1074)) by (apply Z.pow_pos_nonneg; lia).
  assert (Pt : 0 < 2 ^ (et + 1074)) by (apply Z.pow_pos_nonneg; lia).
  (* the sign and the magnitude *)
  assert (exists p : positive,
            binary_normalize prec emax S e false = binary_round prec emax st p e /\
            Z.pos p * 2 ^ (e + 1074) = Z.pos mt * 2 ^ (et + 1074)) as (p & -> & Vp).
  { destruct st; unfold cond_Zopp in V.
    - destruct S as [|p|p]; [nia| nia |]. exists p. split; [reflexivity|]. lia.
    - destruct S as [|p|p]; [nia| | nia]. exists p. split; [reflexivity|]. lia. }
  clear V S.
  unfold binary_round.
  change (Z.pos (digits2_pos p)) with (Zdigits2 (Z.pos p)).
  assert (M : Zdigits2 (Z.pos p) + e = Zdigits2 (Z.pos mt) + et).
  { pose proof (Zdigits2_mul_pow2 (Z.pos p) (e + 1074) ltac:(lia) ltac:(lia)) as D1.
    pose proof (Zdigits2_mul_pow2 (Z.pos mt) (et + 1074) ltac:(lia) ltac:(lia)) as D2.
    rewrite Vp in D1. lia. }
  rewrite M, Ct.
  destruct (shl_align_spec p e et) as [E1 E2].
  destruct (shl_align p e et) as [mz ez]. simpl fst in *. simpl snd in *.
  assert (Pz : 0 < 2 ^ (ez + 1074)) by (apply Z.pow_pos_nonneg; lia).
  assert (Vz : Z.pos mz = Z.pos mt * 2 ^ (et - ez)).
  { assert (Z.pos mz * 2 ^ (ez + 1074) = Z.pos mt * 2 ^ (et - ez) * 2 ^ (ez + 1074)).
    { rewrite E2, <- !Z.mul_assoc, <- !Z.pow_add_r by lia.
      replace (e - Z.min e et + (ez + 1074)) with (e + 1074) by lia.
      replace (et - ez + (ez + 1074)) with (et + 1074) by lia. exact Vp. }
    nia. }
  assert (Mz : Zdigits2 (Z.pos mz) + ez = Zdigits2 (Z.pos mt) + et).
  { rewrite Vz, Zdigits2_mul_pow2 by lia. lia. }
  rewrite binary_round_aux_exact by (rewrite ?Mz, ?Ct; lia).
  unfold round_core. rewrite Mz, Ct, Vz, rne_div_exact by lia.
  rewrite Ct, Z.ltb_irrefl. unfold pack. simpl fst. simpl snd.
  replace (et <=? emax - prec) with true by (symmetry; apply Z.leb_le; assumption).
  reflexivity.
Qed.

Lemma eqb_refl_finite (s : bool) (m : positive) (e : Z) :
  eqb (S754_finite s m e) (S754_finite s m e) = true.
Proof. unfold eqb, SFeqb. now rewrite FloatOrder.compare_refl. Qed.

(** if [t - l] is exact then adding [l] back gives [t] *)
Lemma add_sub_exact (t l : float) :
  valid t = true -> valid l = true -> exact_sub t l = true ->
  eqb (add l (sub t l)) t = true.
Proof.
  intros Vt Vl X. unfold exact_sub in X.
  destruct t as [st|st| |st mt et]; try discriminate;
    destruct l as [sl|sl| |sl ml el]; try discriminate.
  - destruct st, sl; reflexivity.
  - (* 0 - l *)
    clear X. unfold sub, SFsub, add, SFadd.
    rewrite Z.min_id. unfold shl_align. rewrite Z.sub_diag.
    simpl fst.
    replace (cond_Zopp sl (Z.pos ml) + cond_Zopp (negb sl) (Z.pos ml)) with 0
      by (destruct sl; unfold cond_Zopp, negb; lia).
    destruct st; reflexivity.
  - (* t - 0 *)
    simpl. apply eqb_refl_finite.
  - (* both finite *)
    destruct (bounded_digits mt et Vt) as (Et & _ & _).
    destruct (bounded_digits ml el Vl) as (El & _ & _).
    pose proof (sub_valid (S754_finite st mt et) (S754_finite sl ml el) Vt Vl) as Va.
    destruct (sub (S754_finite st mt et) (S754_finite sl ml el)) as [sa|sa| |sa ma ea] eqn:Ea;
      try discriminate.
    + (* the difference is zero *)
      cbn [units] in X. apply Z.eqb_eq in X.
      change (add (S754_finite sl ml el) (S754_zero sa)) with (S754_finite sl ml el).
      unfold eqb, SFeqb. rewrite (compare_finite sl st ml mt el et Vl Vt).
      set (ez := Z.min el et).
      rewrite (aligned_units mt et ez), (aligned_units ml el ez) in X by (unfold ez; lia).
      rewrite !cond_Zopp_mul in X.
      assert (Pz : 0 < 2 ^ (ez + 1074)) by (apply Z.pow_pos_nonneg; unfold ez; lia).
      replace (cond_Zopp sl (aligned ml el ez) ?= cond_Zopp st (aligned mt et ez)) with Eq;
        [reflexivity|].
      symmetry. apply Z.compare_eq_iff. nia.
    + (* the difference is a finite number *)
      cbn [units] in X. apply Z.eqb_eq in X.
      destruct (bounded_digits ma ea Va) as (Eea & _ & _).
      unfold add, SFadd. rewrite !shl_align_aligned by lia.
      set (ez := Z.min el ea).
      rewrite (round_exact _ ez st mt et); [apply eqb_refl_finite|unfold ez; lia|assumption|].
      rewrite Z.mul_add_distr_r, <- !cond_Zopp_mul.
      rewrite <- !aligned_units by (unfold ez; lia).
      rewrite X. lia.
Qed.

(** [t - t] is exact for a finite [t] *)
Lemma exact_sub_diag (t : float) : is_finite t = true -> exact_sub t t = true.
Proof.
  destruct t as [s|s| |s m e]; try discriminate; intros _.
  - destruct s; reflexivity.
  - assert (E : sub (S754_finite s m e) (S754_finite s m e) = S754_zero false).
    { unfold sub, SFsub. cbv zeta. rewrite Z.sub_diag. reflexivity. }
    unfold exact_sub. rewrite E. cbn [units]. rewrite Z.sub_diag. reflexivity.
Qed.

End FloatArith.

(** ** The calculator *)

Module Calc.

Import Rounding FloatArith FloatOrder Samples.

Lemma literals_valid :
  valid f90 = true /\ valid f50 = true /\ valid f0_45 = true /\
  valid f1500 = true /\ valid f1000 = true /\ valid f1 = true.
Proof. repeat split; reflexivity. Qed.

(** the fields of the returned dict, one by one *)
Lemma calculate_fields (self : MarkoEconomicSim) (jobs tvg : float) (d s : bool) :
  let r := calculate self jobs tvg d s in
  r_labor r = labor_val self jobs tvg /\
  r_auto r = sub tvg (labor_val self jobs tvg) /\
  r_public r = clamp tvg (fst (distribution self jobs tvg d s)) /\
  r_elites r = sub tvg (r_public r) /\
  r_policy r = snd (distribution self jobs tvg d s).
Proof.
  unfold calculate. destruct (distribution self jobs tvg d s) as [a p].
  simpl. unfold clamp. repeat split; reflexivity.
Qed.

Lemma workforce_valid (self : MarkoEconomicSim) (jobs : float) :
  valid (population self) = true -> valid jobs = true ->
  valid (workforce self jobs) = true.
Proof.
  intros Vp Vj. unfold workforce, PyFloat.min.
  destruct (ltb (population self) jobs); assumption.
Qed.

Lemma labor_val_valid (self : MarkoEconomicSim) (jobs tvg : float) :
  valid (population self) = true -> valid jobs = true -> valid tvg = true ->
  valid (labor_val self jobs tvg) = true.
Proof.
  intros Vp Vj Vt. unfold labor_val.
  destruct (gtb (mul (workforce self jobs) f90) tvg); [assumption|].
  apply mul_valid; [apply workforce_valid; assumption|reflexivity].
Qed.

Lemma distribution_valid (self : MarkoEconomicSim) (jobs tvg : float) (d s : bool) :
  valid (QLT self) = true -> valid (population self) = true ->
  valid jobs = true -> valid tvg = true ->
  valid (fst (distribution self jobs tvg d s)) = true.
Proof.
  intros Vq Vp Vj Vt.
  pose proof (workforce_valid self jobs Vp Vj) as Vw.
  assert (Vs : valid (standard_allocation self jobs) = true)
    by (apply mul_valid; [assumption|reflexivity]).
  unfold distribution.
  destruct d; [apply mul_valid; [assumption|reflexivity]|].
  destruct s; destruct (ltb tvg f1000); simpl; try assumption.
  apply mul_valid; [assumption|]. apply div_valid; [assumption|reflexivity].
Qed.

Lemma clamp_valid (t a : float) : valid t = true -> valid a = true -> valid (clamp t a) = true.
Proof. intros Vt Va. unfold clamp. destruct (gtb a t); assumption. Qed.

(** away from NaN the clamped value is at most the bound *)
Lemma clamp_leb (t a : float) :
  is_nan t = false -> is_nan (clamp t a) = false -> leb (clamp t a) t = true.
Proof.
  unfold clamp, gtb. fold (ltb t a). intros Nt Nc.
  destruct (ltb t a) eqn:E.
  - apply leb_refl; assumption.
  - apply not_ltb_leb; assumption.
Qed.

Lemma ltb_asym (x y : float) : ltb x y = true -> ltb y x = false.
Proof.
  unfold ltb, SFltb. rewrite (compare_antisym x y).
  destruct (SFcompare x y) as [[ | | ]|]; simpl; congruence.
Qed.

Lemma ltb_leb (x y : float) : ltb x y = true -> leb x y = true.
Proof.
  unfold ltb, leb, SFltb, SFleb. destruct (SFcompare x y) as [[ | | ]|]; congruence.
Qed.

Lemma ltb_irrefl (x : float) : ltb x x = false.
Proof.
  destruct (ltb x x) eqn:E; [|reflexivity].
  pose proof (ltb_asym x x E). congruence.
Qed.

(** a workforce strictly below the population is the number of jobs *)
Lemma workforce_below (self : MarkoEconomicSim) (jobs : float) :
  ltb (workforce self jobs) (population self) = true -> workforce self jobs = jobs.
Proof.
  unfold workforce, PyFloat.min. destruct (ltb (population self) jobs); [|reflexivity].
  rewrite ltb_irrefl. discriminate.
Qed.

Lemma sub_diag (t : float) : is_finite t = true -> sub t t = pos_zero.
Proof.
  destruct t as [s|s| |s m e]; try discriminate; intros _.
  - destruct s; reflexivity.
  - unfold sub, SFsub. cbv zeta. rewrite Z.sub_diag. reflexivity.
Qed.

Lemma ltb_clamp (t a b : float) :
  ltb a b = true -> ltb a t = true -> ltb (clamp t a) (clamp t b) = true.
Proof.
  intros Lab Lat. unfold clamp, gtb. fold (ltb t a). fold (ltb t b).
  rewrite (ltb_asym a t Lat). destruct (ltb t b); assumption.
Qed.

Lemma mul_not_nan (x c : float) :
  valid x = true -> valid c = true -> is_finite x = true ->
  match c with S754_finite _ _ _ => True | _ => False end ->
  is_nan (mul x c) = false.
Proof.
  intros Vx Vc Fx Fc.
  destruct c as [sc|sc| |sc mc ec]; try contradiction.
  destruct x as [sx|sx| |sx mx ex]; try discriminate.
  - reflexivity.
  - eapply rounded_not_nan. apply (mul_finite_rounded sx sc mx mc ex ec Vx Vc).
Qed.

Lemma workforce_finite (self : MarkoEconomicSim) (jobs : float) :
  is_finite (population self) = true -> is_finite jobs = true ->
  is_finite (workforce self jobs) = true.
Proof.
  intros Fp Fj. unfold workforce, PyFloat.min.
  destruct (ltb (population self) jobs); assumption.
Qed.

Lemma clamp_not_nan (t a : float) :
  is_nan t = false -> is_nan a = false -> is_nan (clamp t a) = false.
Proof. intros Nt Na. unfold clamp. destruct (gtb a t); assumption. Qed.

Lemma finite_not_nan (x : float) : is_finite x = true -> is_nan x = false.
Proof. destruct x; try discriminate; reflexivity. Qed.

(** the sum [labor + automation] of the program is [tvg] on the sliders *)
Lemma sliders_sum_exact_true : Dashboard.sliders_sum_exact = true.
Proof. vm_compute. reflexivity. Qed.

End Calc.

(** ** The scenarios of the specification, evaluated *)

Module Scenarios.

Import Samples.

(** the literal [0.45] is the correctly rounded quotient 45/100 *)
Example literal_0_45 : f0_45 = div (of_Z 45) (of_Z 100).
Proof. vm_compute. reflexivity. Qed.

(** [tvg = 900], no policy: allocation 495, surplus 405 *)
Example recession_cutbacks :
  let r := calculate default_sim f16_5 (of_Z 900) false false in
  r_public r = of_Z 495 /\ r_elites r = of_Z 405 /\
  r_policy r = "Recession Cutbacks"%string.
Proof. vm_compute. repeat split; reflexivity. Qed.

(** [tvg = 1500], dividend: allocation 675, surplus 825 *)
Example national_dividend :
  let r := calculate default_sim f16_5 (of_Z 1500) true false in
  r_public r = of_Z 675 /\ r_elites r = of_Z 825 /\
  r_policy r = "National Dividend Active"%string.
Proof. vm_compute. repeat split; reflexivity. Qed.

(** [tvg = 900], stabilization: allocation 667, surplus 233 *)
Example stabilization_triggered :
  let r := calculate default_sim f16_5 (of_Z 900) false true in
  r_public r = of_Z 667 /\ r_elites r = of_Z 233 /\
  r_policy r = "Stabilization Fund TRIGGERED"%string.
Proof. vm_compute. repeat split; reflexivity. Qed.

(** [tvg = 1500], stabilization: the standard allocation 825 *)
Example stabilization_standby :
  let r := calculate default_sim f16_5 (of_Z 1500) false true in
  r_public r = of_Z 825 /\ r_policy r = "Stabilization Fund (Standby)"%string.
Proof. vm_compute. repeat split; reflexivity. Qed.

End Scenarios.

(** ** Further float arithmetic: exact products, order of sums and
    differences *)

Module FloatMore.

Import Rounding FloatArith FloatOrder Calc Samples.

(** [round_core] returns a canonical pair unchanged, whatever the exponent it
    is written with *)
Lemma round_core_exact (mt : positive) (et n : Z) :
  bounded prec emax mt et = true -> 0 <= n ->
  round_core (Z.pos mt * 2 ^ n) (et - n) = (Z.pos mt, et).
Proof.
  intros Bt Hn. destruct (bounded_canonical mt et Bt) as [Ct _].
  unfold round_core.
  assert (M : Zdigits2 (Z.pos mt * 2 ^ n) + (et - n) = Zdigits2 (Z.pos mt) + et)
    by (rewrite Zdigits2_mul_pow2 by lia; lia).
  rewrite M, Ct. replace (et - (et - n)) with n by lia.
  rewrite rne_div_exact by lia. rewrite Ct, Z.ltb_irrefl. reflexivity.
Qed.

Lemma pack_bounded (s : bool) (m : positive) (e : Z) :
  bounded prec emax m e = true -> pack s (Z.pos m, e) = S754_finite s m e.
Proof.
  intros B. destruct (bounded_canonical m e B) as [_ R]. unfold pack. simpl fst. simpl snd.
  replace (e <=? emax - prec) with true by (symmetry; apply Z.leb_le; assumption).
  reflexivity.
Qed.

(** [x * 1.0] is [x] *)
Lemma mul_one (x : float) : valid x = true -> is_nan x = false -> mul x f1 = x.
Proof.
  intros Vx Nx. destruct x as [sx|sx| |sx mx ex]; try discriminate.
  - destruct sx; reflexivity.
  - destruct sx; reflexivity.
  - change f1 with (S754_finite false 4503599627370496 (-52)).
    rewrite mul_finite by (try assumption; reflexivity).
    change (Z.pos 4503599627370496) with (2 ^ 52).
    replace (ex + -52) with (ex - 52) by lia.
    rewrite round_core_exact by (try assumption; lia).
    rewrite xorb_false_r. apply pack_bounded; assumption.
Qed.

Lemma mul_comm (x y : float) : mul x y = mul y x.
Proof.
  destruct x as [sx|sx| |sx mx ex], y as [sy|sy| |sy my ey]; simpl;
    try reflexivity; try (rewrite (xorb_comm sx sy); reflexivity).
  rewrite (xorb_comm sx sy), (Pos.mul_comm mx my), (Z.add_comm ex ey). reflexivity.
Qed.

(** multiplication by a positive finite constant on the left *)
Lemma mul_mono_l (x y : float) (mc : positive) (ec : Z) :
  valid x = true -> valid y = true -> bounded prec emax mc ec = true ->
  leb x y = true ->
  leb (mul (S754_finite false mc ec) x) (mul (S754_finite false mc ec) y) = true.
Proof.
  intros. rewrite (mul_comm _ x), (mul_comm _ y). apply mul_mono; assumption.
Qed.

(** [binary_round] as arithmetic: the value, realigned, goes through
    [round_core] *)
Lemma binary_round_core (s : bool) (p : positive) (e : Z) :
  exists mz ez : Z,
    binary_round prec emax s p e = pack s (round_core mz ez) /\
    0 < mz /\ ez <= e /\ Z.min e (-1074) <= ez /\
    mz = Z.pos p * 2 ^ (e - ez) /\
    ez <= fexp prec emax (Zdigits2 mz + ez).
Proof.
  unfold binary_round.
  destruct (shl_align_spec p e (fexp prec emax (Z.pos (digits2_pos p) + e))) as [E1 E2].
  destruct (shl_align p e (fexp prec emax (Z.pos (digits2_pos p) + e))) as [mz ez].
  simpl fst in *; simpl snd in *.
  change (Z.pos (digits2_pos p)) with (Zdigits2 (Z.pos p)) in *.
  assert (P : 0 < 2 ^ (e - ez)) by (apply Z.pow_pos_nonneg; lia).
  assert (Pre : ez <= fexp prec emax (Zdigits2 (Z.pos mz) + ez)).
  { rewrite E2, Zdigits2_mul_pow2 by lia.
    replace (Zdigits2 (Z.pos p) + (e - Z.min e (fexp prec emax (Zdigits2 (Z.pos p) + e))) + ez)
      with (Zdigits2 (Z.pos p) + e) by lia.
    lia. }
  exists (Z.pos mz), ez. split; [apply binary_round_aux_exact; [lia|assumption]|].
  split; [lia|]. split; [lia|]. split; [rewrite fexp_eq in E1; lia|].
  split; [rewrite E2; do 2 f_equal; lia|assumption].
Qed.

Lemma binary_round_aux_opp (m e : Z) (l : location) :
  binary_round_aux prec emax true m e l = SFopp (binary_round_aux prec emax false m e l).
Proof.
  unfold binary_round_aux.
  destruct (shr_fexp prec emax m e l) as [mrs1 e1].
  destruct (shr_fexp prec emax _ e1 loc_Exact) as [mrs2 e2].
  destruct (shr_m mrs2); try reflexivity.
  destruct (e2 <=? emax - prec); reflexivity.
Qed.

Lemma binary_round_opp (p : positive) (e : Z) :
  binary_round prec emax true p e = SFopp (binary_round prec emax false p e).
Proof.
  unfold binary_round. destruct (shl_align p e _) as [mz ez]. apply binary_round_aux_opp.
Qed.

(** rounding is monotone in the value, counted in units of [2^-1074] *)
Lemma round_pos_mono (p1 p2 : positive) (e1 e2 : Z) :
  -1074 <= e1 -> -1074 <= e2 ->
  Z.pos p1 * 2 ^ (e1 + 1074) <= Z.pos p2 * 2 ^ (e2 + 1074) ->
  leb (binary_round prec emax false p1 e1) (binary_round prec emax false p2 e2) = true.
Proof.
  intros H1 H2 L.
  destruct (binary_round_core false p1 e1) as (m1 & z1 & -> & P1 & U1 & L1 & V1 & C1).
  destruct (binary_round_core false p2 e2) as (m2 & z2 & -> & P2 & U2 & L2 & V2 & C2).
  destruct (round_core_spec m1 z1 ltac:(lia) C1) as (F1 & _ & _).
  destruct (round_core_spec m2 z2 ltac:(lia) C2) as (F2 & _ & _).
  apply (pack_leb _ _ (-1074)).
  - apply round_core_canon; [lia|assumption].
  - apply round_core_canon; [lia|assumption].
  - lia.
  - lia.
  - apply round_core_mono; try assumption; try lia.
    replace (z1 - -1074) with (z1 + 1074) by lia.
    replace (z2 - -1074) with (z2 + 1074) by lia.
    rewrite V1, V2, <- !Z.mul_assoc, <- !Z.pow_add_r by lia.
    replace (e1 - z1 + (z1 + 1074)) with (e1 + 1074) by lia.
    replace (e2 - z2 + (z2 + 1074)) with (e2 + 1074) by lia.
    exact L.
Qed.

Lemma normalize_mono (S1 S2 e1 e2 : Z) :
  -1074 <= e1 -> -1074 <= e2 ->
  S1 * 2 ^ (e1 + 1074) <= S2 * 2 ^ (e2 + 1074) ->
  leb (binary_normalize prec emax S1 e1 false) (binary_normalize prec emax S2 e2 false) = true.
Proof.
  intros H1 H2 L.
  assert (P1 : 0 < 2 ^ (e1 + 1074)) by (apply Z.pow_pos_nonneg; lia).
  assert (P2 : 0 < 2 ^ (e2 + 1074)) by (apply Z.pow_pos_nonneg; lia).
  destruct S1 as [|p1|p1], S2 as [|p2|p2]; simpl binary_normalize; try nia.
  - reflexivity.
  - apply leb_zero_rounded_pos. apply binary_round_rounded.
  - apply round_pos_mono; assumption.
  - apply leb_rounded_neg_zero. apply binary_round_rounded.
  - apply leb_rounded_neg_pos; apply binary_round_rounded.
  - rewrite !binary_round_opp, leb_opp. apply round_pos_mono; try assumption. lia.
Qed.

(** on well-formed finite values the order is the order of the values *)
Lemma leb_units (x y : float) (u v : Z) :
  valid x = true -> valid y = true -> units x = Some u -> units y = Some v ->
  (leb x y = true <-> u <= v).
Proof.
  intros Vx Vy Ux Uy.
  destruct x as [sx|sx| |sx mx ex]; try discriminate;
    destruct y as [sy|sy| |sy my ey]; try discriminate;
    unfold units in Ux, Uy;
    assert (Eu := f_equal (fun o => match o with Some z => z | None => 0 end) Ux);
    assert (Ev := f_equal (fun o => match o with Some z => z | None => 0 end) Uy);
    cbv beta iota in Eu, Ev; subst u v; clear Ux Uy.
  - split; [lia|reflexivity].
  - destruct (bounded_digits my ey Vy) as (Ey & _ & _).
    assert (0 < Z.pos my * 2 ^ (ey + 1074))
      by (assert (0 < 2 ^ (ey + 1074)) by (apply Z.pow_pos_nonneg; lia); nia).
    set (w := Z.pos my * 2 ^ (ey + 1074)) in *. clearbody w.
    destruct sy; simpl; split; intros H'; try discriminate; try reflexivity;
      try lia; exfalso; lia.
  - destruct (bounded_digits mx ex Vx) as (Ex & _ & _).
    assert (0 < Z.pos mx * 2 ^ (ex + 1074))
      by (assert (0 < 2 ^ (ex + 1074)) by (apply Z.pow_pos_nonneg; lia); nia).
    set (w := Z.pos mx * 2 ^ (ex + 1074)) in *. clearbody w.
    destruct sx; simpl; split; intros H'; try discriminate; try reflexivity;
      try lia; exfalso; lia.
  - destruct (bounded_digits mx ex Vx) as (Ex & _ & _).
    destruct (bounded_digits my ey Vy) as (Ey & _ & _).
    unfold leb, SFleb. rewrite (compare_finite sx sy mx my ex ey Vx Vy).
    set (ez := Z.min ex ey).
    rewrite (aligned_units mx ex ez), (aligned_units my ey ez) by (unfold ez; lia).
    rewrite !cond_Zopp_mul.
    assert (Pz : 0 < 2 ^ (ez + 1074)) by (apply Z.pow_pos_nonneg; unfold ez; lia).
    destruct (Z.compare_spec (cond_Zopp sx (aligned mx ex ez)) (cond_Zopp sy (aligned my ey ez)));
      split; intros H'; try reflexivity; try discriminate; nia.
Qed.

(** a well-formed finite number is the rounding of its own value *)
Lemma finite_as_normalize (s : bool) (m : positive) (e : Z) :
  bounded prec emax m e = true ->
  S754_finite s m e = binary_normalize prec emax (cond_Zopp s (Z.pos m)) e false.
Proof.
  intros B. destruct (bounded_digits m e B) as (E & _ & _).
  symmetry. apply round_exact; [assumption|assumption|].
  rewrite cond_Zopp_mul. reflexivity.
Qed.

(** [x + y] for a finite non-zero [x] and a finite [y]: the rounding of the
    sum of the values *)
Lemma add_as_normalize (sx : bool) (mx : positive) (ex : Z) (y : float) (v : Z) :
  bounded prec emax mx ex = true -> valid y = true -> units y = Some v ->
  exists S e, -1074 <= e /\
    add (S754_finite sx mx ex) y = binary_normalize prec emax S e false /\
    S * 2 ^ (e + 1074) = cond_Zopp sx (Z.pos mx * 2 ^ (ex + 1074)) + v.
Proof.
  intros Bx Vy Uy. destruct (bounded_digits mx ex Bx) as (Ex & _ & _).
  destruct y as [sy|sy| |sy my ey]; try discriminate; cbn [units] in Uy; injection Uy as <-.
  - exists (cond_Zopp sx (Z.pos mx)), ex. split; [assumption|]. split.
    + change (add (S754_finite sx mx ex) (S754_zero sy)) with (S754_finite sx mx ex).
      apply finite_as_normalize; assumption.
    + rewrite cond_Zopp_mul. lia.
  - destruct (bounded_digits my ey Vy) as (Ey & _ & _).
    exists (cond_Zopp sx (aligned mx ex (Z.min ex ey)) + cond_Zopp sy (aligned my ey (Z.min ex ey))),
      (Z.min ex ey).
    split; [lia|]. split.
    + unfold add, SFadd. rewrite !shl_align_aligned by lia. reflexivity.
    + rewrite Z.mul_add_distr_r, <- !cond_Zopp_mul, <- !aligned_units by lia. reflexivity.
Qed.

(** adding to a finite non-zero number is monotone *)
Lemma add_mono_r (sx : bool) (mx : positive) (ex : Z) (y y' : float) :
  bounded prec emax mx ex = true -> valid y = true -> valid y' = true ->
  leb y y' = true ->
  leb (add (S754_finite sx mx ex) y) (add (S754_finite sx mx ex) y') = true.
Proof.
  intros Bx Vy Vy' L.
  destruct (leb_not_nan y y' L) as [Ny Ny'].
  destruct (units y) as [v|] eqn:Uy; destruct (units y') as [v'|] eqn:Uy'.
  - destruct (add_as_normalize sx mx ex y v Bx Vy Uy) as (S & e & He & -> & VS).
    destruct (add_as_normalize sx mx ex y' v' Bx Vy' Uy') as (S' & e' & He' & -> & VS').
    apply normalize_mono; try assumption.
    rewrite VS, VS'. apply (leb_units y y' v v') in L; try assumption. lia.
  - (* [y'] is an infinity *)
    destruct y' as [?|sy'| |? ? ?]; try discriminate.
    destruct sy'; [destruct y as [?|[]| |[] ? ?]; discriminate|].
    destruct (add_as_normalize sx mx ex y v Bx Vy Uy) as (S & e & He & -> & VS).
    change (add (S754_finite sx mx ex) (S754_infinity false)) with (S754_infinity false).
    eapply leb_rounded_pinf. apply binary_normalize_rounded.
  - destruct y as [?|sy| |? ? ?]; try discriminate.
    destruct sy; [|destruct y' as [?|[]| |[] ? ?]; discriminate].
    destruct (add_as_normalize sx mx ex y' v' Bx Vy' Uy') as (S & e & He & -> & VS).
    change (add (S754_finite sx mx ex) (S754_infinity true)) with (S754_infinity true).
    eapply leb_ninf_rounded. apply binary_normalize_rounded.
  - destruct y as [?|sy| |? ? ?]; try discriminate.
    destruct y' as [?|sy'| |? ? ?]; try discriminate.
    destruct sy, sy'; try discriminate; reflexivity.
Qed.

(** subtracting a non-negative number from a finite one does not increase it *)
Lemma sub_le_self (t l : float) :
  valid t = true -> valid l = true -> is_finite t = true ->
  leb pos_zero l = true -> leb (sub t l) t = true.
Proof.
  intros Vt Vl Ft L.
  destruct t as [st|st| |st mt et]; try discriminate;
    destruct l as [sl|sl| |sl ml el]; try discriminate.
  - destruct st, sl; reflexivity.
  - destruct sl; [discriminate|destruct st; reflexivity].
  - destruct sl; [discriminate|]. reflexivity.
  - simpl. apply leb_refl. reflexivity.
  - destruct sl; [discriminate|]. destruct st; reflexivity.
  - destruct sl; [discriminate|].
    destruct (bounded_digits mt et Vt) as (Et & _ & _).
    destruct (bounded_digits ml el Vl) as (El & _ & _).
    rewrite (finite_as_normalize st mt et Vt) at 2.
    unfold sub, SFsub. rewrite !shl_align_aligned by lia.
    apply normalize_mono; try lia.
    rewrite Z.mul_sub_distr_r, <- !cond_Zopp_mul, <- !aligned_units by lia.
    assert (0 < 2 ^ (el + 1074)) by (apply Z.pow_pos_nonneg; lia).
    unfold cond_Zopp at 2. nia.
Qed.

End FloatMore.

(** ** Signs, bounds and monotonicity of the calculator's and the renderer's
    steps *)

Module Flows.

Import Rounding FloatArith FloatOrder Calc Samples FloatMore.

(** ** More on the order *)

Lemma ltb_leb_ltb (x y z : float) : ltb x y = true -> leb y z = true -> ltb x z = true.
Proof.
  intros H1 H2.
  destruct (ltb_not_nan x y H1) as [Nx Ny].
  destruct (leb_not_nan y z H2) as [_ Nz].
  apply ltb_key in H1; try assumption. apply leb_key in H2; try assumption.
  apply ltb_key; try assumption.
  destruct (key x) as [[a1 b1] c1], (key y) as [[a2 b2] c2], (key z) as [[a3 b3] c3].
  unfold lex_le, lex_lt in *. lia.
Qed.

Lemma leb_ltb_ltb (x y z : float) : leb x y = true -> ltb y z = true -> ltb x z = true.
Proof.
  intros H1 H2.
  destruct (leb_not_nan x y H1) as [Nx Ny].
  destruct (ltb_not_nan y z H2) as [_ Nz].
  apply leb_key in H1; try assumption. apply ltb_key in H2; try assumption.
  apply ltb_key; try assumption.
  destruct (key x) as [[a1 b1] c1], (key y) as [[a2 b2] c2], (key z) as [[a3 b3] c3].
  unfold lex_le, lex_lt in *. lia.
Qed.

(** the non-negative values: zeros, positive finite numbers, [+inf] *)
Lemma nonneg_cases (x : float) :
  leb pos_zero x = true ->
  (exists s, x = S754_zero s) \/ (exists m e, x = S754_finite false m e) \/
  x = S754_infinity false.
Proof.
  destruct x as [s|s| |s m e]; try discriminate; intros H.
  - left. eauto.
  - destruct s; [discriminate|]. right. right. reflexivity.
  - destruct s; [discriminate|]. right. left. eauto.
Qed.

Lemma rounded_nonneg (x : float) : rounded false x -> leb pos_zero x = true.
Proof. destruct 1; reflexivity. Qed.

Lemma nonneg_not_nan (x : float) : leb pos_zero x = true -> is_nan x = false.
Proof. intros H. apply (leb_not_nan pos_zero x H). Qed.

(** a product of non-negative numbers is non-negative, or a NaN ([inf * 0]) *)
Lemma mul_nonneg (x y : float) :
  valid x = true -> valid y = true ->
  leb pos_zero x = true -> leb pos_zero y = true ->
  is_nan (mul x y) = true \/ leb pos_zero (mul x y) = true.
Proof.
  intros Vx Vy Px Py.
  destruct (nonneg_cases x Px) as [[sx ->]|[(mx & ex & ->)| ->]];
    destruct (nonneg_cases y Py) as [[sy ->]|[(my & ey & ->)| ->]];
    try (left; reflexivity);
    try (right; simpl; try destruct sx; try destruct sy; reflexivity).
  right. apply rounded_nonneg. apply (mul_finite_rounded false false mx my ex ey Vx Vy).
Qed.

(** times a positive finite constant: non-negative, never a NaN *)
Lemma mul_pos_const_nonneg (x : float) (mc : positive) (ec : Z) :
  valid x = true -> bounded prec emax mc ec = true ->
  leb pos_zero x = true -> leb pos_zero (mul x (S754_finite false mc ec)) = true.
Proof.
  intros Vx Vc Px.
  destruct (nonneg_cases x Px) as [[sx ->]|[(mx & ex & ->)| ->]].
  - destruct sx; reflexivity.
  - apply rounded_nonneg. apply (mul_finite_rounded false false mx mc ex ec Vx Vc).
  - reflexivity.
Qed.

(** a NaN in, a NaN out, and only then, for a finite non-zero factor *)
Lemma mul_finite_const_nan (x : float) (sc : bool) (mc : positive) (ec : Z) :
  valid x = true -> bounded prec emax mc ec = true ->
  is_nan (mul x (S754_finite sc mc ec)) = is_nan x.
Proof.
  intros Vx Vc. destruct x as [sx|sx| |sx mx ex]; try reflexivity.
  simpl is_nan. eapply rounded_not_nan. apply (mul_finite_rounded sx sc mx mc ex ec Vx Vc).
Qed.

Lemma div_finite_rounded (sx sy : bool) (mx my : positive) (ex ey : Z) :
  rounded (xorb sx sy) (div (S754_finite sx mx ex) (S754_finite sy my ey)).
Proof.
  unfold div, SFdiv.
  pose proof (SFdiv_core_binary_spec mx my ex ey) as H.
  destruct (SFdiv_core_binary prec emax (Z.pos mx) ex (Z.pos my) ey) as [[q e'] l].
  destruct H as [Hq He]. apply binary_round_aux_rounded; assumption.
Qed.

Lemma div_pos_const_nonneg (x : float) (mc : positive) (ec : Z) :
  leb pos_zero x = true -> leb pos_zero (div x (S754_finite false mc ec)) = true.
Proof.
  intros Px.
  destruct (nonneg_cases x Px) as [[sx ->]|[(mx & ex & ->)| ->]].
  - destruct sx; reflexivity.
  - apply rounded_nonneg. apply (div_finite_rounded false false mx mc ex ec).
  - reflexivity.
Qed.

Lemma div_finite_const_nan (x : float) (sc : bool) (mc : positive) (ec : Z) :
  is_nan (div x (S754_finite sc mc ec)) = is_nan x.
Proof.
  destruct x as [sx|sx| |sx mx ex]; try reflexivity.
  simpl is_nan. eapply rounded_not_nan. apply (div_finite_rounded sx sc mx mc ex ec).
Qed.

(** [x * c <= x] for [x >= 0] and a constant [0 < c <= 1] *)
Lemma mul_le_self (x : float) (mc : positive) (ec : Z) :
  valid x = true -> bounded prec emax mc ec = true ->
  leb (S754_finite false mc ec) f1 = true ->
  leb pos_zero x = true -> leb (mul x (S754_finite false mc ec)) x = true.
Proof.
  intros Vx Vc C1 Px.
  destruct (nonneg_cases x Px) as [[sx ->]|[(mx & ex & ->)| ->]].
  - destruct sx; reflexivity.
  - rewrite <- (mul_one (S754_finite false mx ex) Vx eq_refl) at 2.
    rewrite (mul_comm _ f1), (mul_comm _ (S754_finite false mc ec)).
    apply mul_mono; try assumption; reflexivity.
  - reflexivity.
Qed.

Lemma clamp_nonneg (t a : float) :
  leb pos_zero t = true -> leb pos_zero a = true -> leb pos_zero (clamp t a) = true.
Proof. intros Pt Pa. unfold clamp. destruct (gtb a t); assumption. Qed.

Lemma min_nonneg (a b : float) :
  leb pos_zero a = true -> leb pos_zero b = true -> leb pos_zero (PyFloat.min a b) = true.
Proof. intros Pa Pb. unfold PyFloat.min. destruct (ltb b a); assumption. Qed.

Lemma min_valid (a b : float) : valid a = true -> valid b = true -> valid (PyFloat.min a b) = true.
Proof. intros Va Vb. unfold PyFloat.min. destruct (ltb b a); assumption. Qed.

(** Python's [min(a, b)] is a NaN exactly when its first argument is *)
Lemma min_nan (a b : float) : is_nan (PyFloat.min a b) = is_nan a.
Proof.
  unfold PyFloat.min. destruct (ltb b a) eqn:E; [|reflexivity].
  destruct (ltb_not_nan b a E) as [-> ->]. reflexivity.
Qed.

Lemma min_le_l (a b : float) : is_nan a = false -> leb (PyFloat.min a b) a = true.
Proof.
  intros Na. unfold PyFloat.min. destruct (ltb b a) eqn:E.
  - apply ltb_leb; assumption.
  - apply leb_refl; assumption.
Qed.

Lemma min_le_r (a b : float) :
  is_nan a = false -> is_nan b = false -> leb (PyFloat.min a b) b = true.
Proof.
  intros Na Nb. unfold PyFloat.min. destruct (ltb b a) eqn:E.
  - apply leb_refl; assumption.
  - apply not_ltb_leb; assumption.
Qed.

(** [min] is monotone in its first argument *)
Lemma min_mono_l (a a' b : float) :
  leb a a' = true -> leb (PyFloat.min a b) (PyFloat.min a' b) = true.
Proof.
  intros L. destruct (leb_not_nan a a' L) as [Na Na'].
  unfold PyFloat.min. destruct (ltb b a) eqn:E; destruct (ltb b a') eqn:E'.
  - apply leb_refl. apply (ltb_not_nan b a E).
  - rewrite (ltb_leb_ltb b a a' E L) in E'. discriminate.
  - apply not_ltb_leb; try assumption. apply (ltb_not_nan b a' E').
  - assumption.
Qed.

(** [max]-like floor of the arrow width, [if w < 1: w = 1], is monotone *)
Lemma floor_mono (w w' : float) :
  leb w w' = true ->
  leb (if ltb w f1 then f1 else w) (if ltb w' f1 then f1 else w') = true.
Proof.
  intros L. destruct (leb_not_nan w w' L) as [Nw Nw'].
  destruct (ltb w f1) eqn:E; destruct (ltb w' f1) eqn:E'.
  - reflexivity.
  - apply not_ltb_leb; [reflexivity|assumption|assumption].
  - rewrite (leb_ltb_ltb w w' f1 L E') in E. discriminate.
  - assumption.
Qed.

(** *** The flows of [calculate] on non-negative inputs *)

Lemma clamp_nan (t a : float) : is_nan a = true -> clamp t a = a.
Proof. destruct a; try discriminate. intros _. destruct t; reflexivity. Qed.

Lemma workforce_nonneg (self : MarkoEconomicSim) (jobs : float) :
  leb pos_zero (population self) = true -> leb pos_zero jobs = true ->
  leb pos_zero (workforce self jobs) = true.
Proof. intros Pp Pj. apply min_nonneg; assumption. Qed.

Lemma labor_bounds (self : MarkoEconomicSim) (jobs tvg : float) :
  valid (population self) = true -> valid jobs = true ->
  leb pos_zero (population self) = true -> leb pos_zero jobs = true ->
  leb pos_zero tvg = true ->
  leb pos_zero (labor_val self jobs tvg) = true /\ leb (labor_val self jobs tvg) tvg = true.
Proof.
  intros Vp Vj Pp Pj Pt.
  change (labor_val self jobs tvg) with (clamp tvg (mul (workforce self jobs) f90)).
  assert (P : leb pos_zero (clamp tvg (mul (workforce self jobs) f90)) = true).
  { apply clamp_nonneg; [assumption|].
    apply (mul_pos_const_nonneg _ 6333186975989760 (-46)).
    - apply workforce_valid; assumption.
    - reflexivity.
    - apply workforce_nonneg; assumption. }
  split; [exact P|].
  apply clamp_leb; apply nonneg_not_nan; assumption.
Qed.

Lemma residual_bounds (t l : float) :
  valid t = true -> valid l = true -> is_finite t = true ->
  leb pos_zero l = true -> leb l t = true ->
  leb pos_zero (sub t l) = true /\ leb (sub t l) t = true.
Proof.
  intros Vt Vl Ft Pl L. split.
  - apply sub_nonneg; assumption.
  - apply sub_le_self; assumption.
Qed.

(** the allocation before the clamp is non-negative, or a NaN ([inf * 0] in
    the cutback) *)
Lemma distribution_nonneg (self : MarkoEconomicSim) (jobs tvg : float) (d s : bool) :
  valid (population self) = true -> valid jobs = true -> valid tvg = true ->
  leb pos_zero (QLT self) = true -> leb pos_zero (population self) = true ->
  leb pos_zero jobs = true -> leb pos_zero tvg = true ->
  is_nan (fst (distribution self jobs tvg d s)) = true \/
  leb pos_zero (fst (distribution self jobs tvg d s)) = true.
Proof.
  intros Vp Vj Vt Pq Pp Pj Pt.
  assert (Vw : valid (workforce self jobs) = true) by (apply workforce_valid; assumption).
  assert (Pw : leb pos_zero (workforce self jobs) = true) by (apply workforce_nonneg; assumption).
  assert (Ps : leb pos_zero (standard_allocation self jobs) = true).
  { apply (mul_pos_const_nonneg _ 7036874417766400 (-47)); try assumption. reflexivity. }
  unfold distribution. destruct d; [|destruct s; destruct (ltb tvg f1000)]; cbn [fst].
  - right. apply (mul_pos_const_nonneg _ 8106479329266893 (-54)); try assumption. reflexivity.
  - right. assumption.
  - right. assumption.
  - apply mul_nonneg; try assumption.
    + apply mul_valid; [assumption|reflexivity].
    + apply div_valid; [assumption|reflexivity].
    + apply (div_pos_const_nonneg _ 6597069766656000 (-42)). assumption.
  - right. assumption.
Qed.

Lemma public_bounds (self : MarkoEconomicSim) (jobs tvg : float) (d s : bool) :
  valid (population self) = true -> valid jobs = true -> valid tvg = true ->
  leb pos_zero (QLT self) = true -> leb pos_zero (population self) = true ->
  leb pos_zero jobs = true -> leb pos_zero tvg = true ->
  is_nan (clamp tvg (fst (distribution self jobs tvg d s))) = false ->
  leb pos_zero (clamp tvg (fst (distribution self jobs tvg d s))) = true /\
  leb (clamp tvg (fst (distribution self jobs tvg d s))) tvg = true.
Proof.
  intros Vp Vj Vt Pq Pp Pj Pt N. split.
  - destruct (distribution_nonneg self jobs tvg d s Vp Vj Vt Pq Pp Pj Pt) as [Na|Pa].
    + rewrite (clamp_nan _ _ Na) in N. congruence.
    + apply clamp_nonneg; assumption.
  - apply clamp_leb; [apply nonneg_not_nan|]; assumption.
Qed.

(** with a quotient [tvg / 1500] that is finite and not zero no branch makes
    a NaN out of non-negative inputs *)
Lemma distribution_not_nan (self : MarkoEconomicSim) (jobs tvg : float) (d s : bool)
    (m : positive) (e : Z) :
  valid (population self) = true -> valid jobs = true -> valid tvg = true ->
  leb pos_zero (QLT self) = true -> leb pos_zero (population self) = true ->
  leb pos_zero jobs = true -> leb pos_zero tvg = true ->
  div tvg f1500 = S754_finite false m e -> bounded prec emax m e = true ->
  is_nan (fst (distribution self jobs tvg d s)) = false.
Proof.
  intros Vp Vj Vt Pq Pp Pj Pt Ed Bd.
  assert (Vw : valid (workforce self jobs) = true) by (apply workforce_valid; assumption).
  assert (Pw : leb pos_zero (workforce self jobs) = true) by (apply workforce_nonneg; assumption).
  assert (Ps : leb pos_zero (standard_allocation self jobs) = true).
  { apply (mul_pos_const_nonneg _ 7036874417766400 (-47)); try assumption. reflexivity. }
  unfold distribution. destruct d; [|destruct s; destruct (ltb tvg f1000)]; cbn [fst];
    try (apply nonneg_not_nan; assumption).
  - apply nonneg_not_nan.
    apply (mul_pos_const_nonneg _ 8106479329266893 (-54)); try assumption. reflexivity.
  - rewrite Ed, mul_finite_const_nan; [apply nonneg_not_nan; assumption| |assumption].
    apply mul_valid; [assumption|reflexivity].
Qed.

(** under the dividend the clamp is idle for [tvg >= 0] *)
Lemma dividend_unclamped (self : MarkoEconomicSim) (jobs tvg : float) (s : bool) :
  valid tvg = true -> leb pos_zero tvg = true ->
  r_public (calculate self jobs tvg true s) = mul tvg f0_45.
Proof.
  intros Vt Pt.
  destruct (calculate_fields self jobs tvg true s) as (_ & _ & -> & _).
  assert (L : leb (mul tvg f0_45) tvg = true)
    by (apply (mul_le_self tvg 8106479329266893 (-54)); try assumption; reflexivity).
  unfold distribution, clamp, gtb. simpl fst.
  fold (ltb tvg (mul tvg f0_45)). now rewrite (leb_not_ltb _ _ L).
Qed.

(** *** The renderer's scalings *)

Lemma scale_eq : Render.scale = S754_finite false 4803839602528529 (-59).
Proof. vm_compute. reflexivity. Qed.

Lemma scaled_nan (v : float) : valid v = true -> is_nan (mul v Render.scale) = is_nan v.
Proof. intros Vv. rewrite scale_eq. apply mul_finite_const_nan; [assumption|reflexivity]. Qed.

Lemma arrow_width_floor (v : float) :
  valid v = true -> is_nan v = false -> leb f1 (Render.arrow_width v) = true.
Proof.
  intros Vv Nv. unfold Render.arrow_width. cbv zeta.
  destruct (ltb (mul v Render.scale) f1) eqn:E; [reflexivity|].
  apply not_ltb_leb; [reflexivity|rewrite scaled_nan; assumption|assumption].
Qed.

Lemma arrow_width_cap (v : float) :
  valid v = true -> leb v (of_Z 3000) = true -> leb (Render.arrow_width v) (of_Z 25) = true.
Proof.
  intros Vv L. unfold Render.arrow_width. cbv zeta.
  destruct (ltb (mul v Render.scale) f1) eqn:E; [reflexivity|].
  assert (E25 : mul (of_Z 3000) Render.scale = of_Z 25) by (vm_compute; reflexivity).
  rewrite <- E25, scale_eq.
  apply mul_mono; try assumption; reflexivity.
Qed.

Lemma arrow_width_mono (v v' : float) :
  valid v = true -> valid v' = true -> leb v v' = true ->
  leb (Render.arrow_width v) (Render.arrow_width v') = true.
Proof.
  intros Vv Vv' L. unfold Render.arrow_width. cbv zeta.
  apply floor_mono. rewrite scale_eq. apply mul_mono; try assumption. reflexivity.
Qed.

(** [min(1.0, x)] as a fraction: valid, never a NaN, at most 1 *)
Lemma percent_facts (x : float) :
  valid x = true ->
  valid (PyFloat.min f1 x) = true /\ is_nan (PyFloat.min f1 x) = false /\
  leb (PyFloat.min f1 x) f1 = true.
Proof.
  intros Vx. split; [apply min_valid; [reflexivity|assumption]|].
  split; [rewrite min_nan; reflexivity|]. apply min_le_l. reflexivity.
Qed.

Lemma level_facts (x : float) :
  valid x = true ->
  let h := mul (of_Z 20) (PyFloat.min f1 (div x f1500)) in
  valid h = true /\ is_nan h = false /\ leb h (of_Z 20) = true /\
  (is_nan x = true -> h = of_Z 20) /\
  (leb pos_zero x = true -> leb pos_zero h = true).
Proof.
  intros Vx h.
  assert (Vd : valid (div x f1500) = true) by (apply div_valid; [assumption|reflexivity]).
  destruct (percent_facts _ Vd) as (Vp & Np & Lp).
  assert (E20 : mul (of_Z 20) f1 = of_Z 20) by (vm_compute; reflexivity).
  assert (C20 : of_Z 20 = S754_finite false 5629499534213120 (-48)) by (vm_compute; reflexivity).
  split; [apply mul_valid; [reflexivity|assumption]|].
  split; [|split; [|split]].
  - unfold h. rewrite mul_comm, C20, mul_finite_const_nan; [assumption|assumption|reflexivity].
  - unfold h. rewrite <- E20 at 2. rewrite C20.
    apply mul_mono_l; try assumption; reflexivity.
  - intros Nx. unfold h.
    assert (Nd : is_nan (div x f1500) = true).
    { change f1500 with (S754_finite false 6597069766656000 (-42)).
      rewrite div_finite_const_nan. assumption. }
    assert (Em : PyFloat.min f1 (div x f1500) = f1).
    { unfold PyFloat.min. destruct (ltb (div x f1500) f1) eqn:E; [|reflexivity].
      destruct (ltb_not_nan _ _ E) as [N _]. congruence. }
    rewrite Em. exact E20.
  - intros Px. unfold h. rewrite mul_comm, C20.
    apply mul_pos_const_nonneg; [assumption|reflexivity|].
    apply min_nonneg; [reflexivity|].
    apply (div_pos_const_nonneg _ 6597069766656000 (-42)). assumption.
Qed.

(** *** The values of the total-value slider *)

Lemma slider_tvg_facts (t : float) :
  In t Dashboard.slider_tvg ->
  valid t = true /\ is_finite t = true /\ leb pos_zero t = true /\
  leb t (of_Z 3000) = true /\
  match div t f1500 with
  | S754_finite false m e => bounded prec emax m e = true
  | _ => False
  end.
Proof.
  intros I.
  assert (A : forallb (fun t =>
                valid t && is_finite t && leb pos_zero t && leb t (of_Z 3000) &&
                match div t f1500 with
                | S754_finite false m e => bounded prec emax m e
                | _ => false
                end) Dashboard.slider_tvg = true) by (vm_compute; reflexivity).
  rewrite forallb_forall in A. specialize (A t I).
  apply andb_prop in A. destruct A as [A A5].
  apply andb_prop in A. destruct A as [A A4].
  apply andb_prop in A. destruct A as [A A3].
  apply andb_prop in A. destruct A as [A1 A2].
  repeat (split; [assumption|]).
  destruct (div t f1500) as [?|?| |[] ? ?]; try discriminate. assumption.
Qed.

End Flows.

(** ** The method calls and the heap *)

Module Calls.

Import Py.

Lemma getattr_set (st : Store) (self : addr) (name : string) (v : float) :
  st self name = Some v -> getattr self name st = (Returned v, st).
Proof. intros E. unfold getattr. rewrite E. reflexivity. Qed.

Lemma getattr_unset (st : Store) (self : addr) (name : string) :
  st self name = None -> getattr self name st = (AttributeError name, st).
Proof. intros E. unfold getattr. rewrite E. reflexivity. Qed.

(** what [setattr] does to the heap: the one attribute of the one object *)
Lemma setattr_heap (st : Store) (self a : addr) (name n : string) (v : float) :
  snd (setattr self name v st) a n =
    if (Nat.eqb a self && String.eqb n name)%bool then Some v else st a n.
Proof. reflexivity. Qed.

(** the constructor stores its two arguments, each under its own name, and
    touches nothing else *)
Lemma call_init_heap (st : Store) (self : addr) (p q : float) :
  fst (call_init self p q st) = Returned tt /\
  snd (call_init self p q st) self "population"%string = Some p /\
  snd (call_init self p q st) self "QLT"%string = Some q /\
  (forall (a : addr) (n : string),
     a <> self \/ (n <> "population"%string /\ n <> "QLT"%string) ->
     snd (call_init self p q st) a n = st a n).
Proof.
  unfold call_init, bind, setattr. cbn [fst snd].
  rewrite Nat.eqb_refl. cbn [andb String.eqb Ascii.eqb Bool.eqb].
  repeat split; try reflexivity.
  intros a n [Na|[Np Nq]].
  - apply Nat.eqb_neq in Na. rewrite Na. reflexivity.
  - apply String.eqb_neq in Np, Nq. rewrite Np, Nq, !andb_false_r. reflexivity.
Qed.

(** the body of the method on an object that has both attributes: the result
    is that of the function [calculate], and the heap is the one of the call *)
Lemma call_calculate_run (st : Store) (self : addr) (p q jobs tvg : float) (d s : bool) :
  st self "population"%string = Some p -> st self "QLT"%string = Some q ->
  call_calculate self jobs tvg d s st = (Returned (calculate (mkSim q p) jobs tvg d s), st).
Proof.
  intros Ep Eq. unfold call_calculate, bind.
  rewrite (getattr_set st self "population"%string p Ep).
  unfold calculate, distribution, labor_val, standard_allocation, workforce.
  cbn [population QLT].
  destruct d; [reflexivity|]. destruct s; destruct (ltb tvg f1000); try reflexivity.
  rewrite (getattr_set st self "QLT"%string q Eq). reflexivity.
Qed.

(** an object without a [population] makes the first statement raise *)
Lemma call_calculate_unset (st : Store) (self : addr) (jobs tvg : float) (d s : bool) :
  st self "population"%string = None ->
  call_calculate self jobs tvg d s st = (AttributeError "population", st).
Proof.
  intros E. unfold call_calculate, bind.
  rewrite (getattr_unset st self "population"%string E). reflexivity.
Qed.

(** the renderer's two lines: a new object and one call on it *)
Lemma construct_and_calculate_run (st : Store) (sim : addr) (p q jobs tvg : float)
    (d s : bool) :
  construct_and_calculate sim p q jobs tvg d s st =
    (Returned (calculate (mkSim q p) jobs tvg d s), snd (call_init sim p q st)).
Proof.
  destruct (call_init_heap st sim p q) as (R & Ep & Eq & _).
  unfold construct_and_calculate, bind at 1.
  destruct (call_init sim p q st) as [o st1] eqn:E. cbn [fst snd] in *. subst o.
  apply call_calculate_run; assumption.
Qed.

End Calls.

Import Rounding FloatArith FloatOrder Calc Samples Calls.

(** ** The claims *)

(** C1, as stated, fails: with [jobs = population = 1e307], [tvg = 0] and no
    policy, all of them finite numbers, the standard allocation overflows to
    infinity, [inf * (0 / 1500)] is a NaN, the clamp [nan > 0] is false, and
    [calculate] returns a NaN allocation and a NaN surplus. *)
Lemma C1_counterexample :
  ~ (forall (self : MarkoEconomicSim) (jobs tvg : float) (d s : bool),
       valid (QLT self) = true -> valid (population self) = true ->
       valid jobs = true -> valid tvg = true ->
       is_finite (QLT self) = true -> is_finite (population self) = true ->
       is_finite jobs = true -> is_finite tvg = true ->
       let r := calculate self jobs tvg d s in
       leb (r_public r) tvg = true /\
       r_elites r = sub tvg (r_public r) /\
       leb pos_zero (r_elites r) = true).
Proof.
  intros H.
  specialize (H (mkSim (of_Z 667) f1e307) f1e307 (of_Z 0) false false
                eq_refl eq_refl eq_refl eq_refl eq_refl eq_refl eq_refl eq_refl).
  destruct H as [H _]. vm_compute in H. discriminate.
Qed.

(** what [calculate] returns there *)
Example C1_counterexample_run :
  calculate (mkSim (of_Z 667) f1e307) f1e307 (of_Z 0) false false =
  mkResult (S754_zero false) (S754_zero false) S754_nan S754_nan "Recession Cutbacks".
Proof. vm_compute. reflexivity. Qed.

(** C1 (amended): [eliteSurplus] is the binary64 difference [tvg - public];
    whenever [tvg] and the returned public allocation are not NaN,
    [public <= tvg]; whenever moreover [tvg] is finite, [eliteSurplus >= 0];
    and for finite inputs the returned allocation is not NaN as soon as a
    policy flag is set or [tvg < 1000] is false. *)
Theorem C1_allocation_clamped (self : MarkoEconomicSim) (jobs tvg : float) (d s : bool) :
  valid (QLT self) = true -> valid (population self) = true ->
  valid jobs = true -> valid tvg = true ->
  let r := calculate self jobs tvg d s in
  r_elites r = sub tvg (r_public r) /\
  (is_nan tvg = false -> is_nan (r_public r) = false -> leb (r_public r) tvg = true) /\
  (is_finite tvg = true -> is_nan (r_public r) = false ->
   leb pos_zero (r_elites r) = true) /\
  (is_finite (QLT self) = true -> is_finite (population self) = true ->
   is_finite jobs = true -> is_finite tvg = true ->
   (d || s || negb (ltb tvg f1000)) = true ->
   is_nan (r_public r) = false).
Proof.
  intros Vq Vp Vj Vt r.
  destruct (calculate_fields self jobs tvg d s) as (_ & _ & Ep & Ee & _). fold r in Ep, Ee.
  split; [exact Ee|]. split; [|split].
  - intros Nt Np. rewrite Ep in *. apply clamp_leb; assumption.
  - intros Ft Np. rewrite Ee.
    assert (Nt : is_nan tvg = false) by (apply finite_not_nan; assumption).
    apply sub_nonneg; try assumption.
    + rewrite Ep. apply clamp_valid; [assumption|]. apply distribution_valid; assumption.
    + rewrite Ep in *. apply clamp_leb; assumption.
  - intros Fq Fp Fj Ft B. rewrite Ep.
    apply clamp_not_nan; [apply finite_not_nan; assumption|].
    pose proof (workforce_valid self jobs Vp Vj) as Vw.
    pose proof (workforce_finite self jobs Fp Fj) as Fw.
    assert (Ns : is_nan (standard_allocation self jobs) = false)
      by (apply mul_not_nan; [assumption|reflexivity|assumption|exact I]).
    unfold distribution. destruct d.
    + apply mul_not_nan; [assumption|reflexivity|assumption|exact I].
    + destruct s.
      * destruct (ltb tvg f1000); [apply finite_not_nan|]; assumption.
      * simpl in B. destruct (ltb tvg f1000); [discriminate|assumption].
Qed.

Lemma C1_allocation_clamped_witness :
  valid (QLT default_sim) = true /\ valid (population default_sim) = true /\
  valid f16_5 = true /\ valid f1500 = true /\
  (let r := calculate default_sim f16_5 f1500 false false in
   r_elites r = sub f1500 (r_public r) /\
   (is_nan f1500 = false -> is_nan (r_public r) = false -> leb (r_public r) f1500 = true) /\
   (is_finite f1500 = true -> is_nan (r_public r) = false ->
    leb pos_zero (r_elites r) = true) /\
   (is_finite (QLT default_sim) = true -> is_finite (population default_sim) = true ->
    is_finite f16_5 = true -> is_finite f1500 = true ->
    (false || false || negb (ltb f1500 f1000)) = true ->
    is_nan (r_public r) = false)).
Proof.
  split; [reflexivity|]. split; [reflexivity|]. split; [reflexivity|]. split; [reflexivity|].
  exact (C1_allocation_clamped default_sim f16_5 f1500 false false
           eq_refl eq_refl eq_refl eq_refl).
Defined.

(** C2, as stated, fails: with [tvg = 2^53 - 1], [jobs = 0.25] and the default
    population, [labor = 22.5], the difference [tvg - 22.5] is a tie and rounds
    to [2^53 - 24], and [22.5 + (2^53 - 24)] is a tie again and rounds to
    [2^53 - 2], which is not [tvg]. *)
Lemma C2_counterexample :
  ~ (forall (self : MarkoEconomicSim) (jobs tvg : float) (d s : bool),
       valid (QLT self) = true -> valid (population self) = true ->
       valid jobs = true -> valid tvg = true ->
       is_finite (QLT self) = true -> is_finite (population self) = true ->
       is_finite jobs = true -> is_finite tvg = true ->
       let r := calculate self jobs tvg d s in
       eqb (add (r_labor r) (r_auto r)) tvg = true).
Proof.
  intros H.
  specialize (H default_sim f0_25 f2p53m1 false false
                eq_refl eq_refl eq_refl eq_refl eq_refl eq_refl eq_refl eq_refl).
  vm_compute in H. discriminate.
Qed.

(** what [calculate] returns there, and the sum *)
Example C2_counterexample_run :
  let r := calculate default_sim f0_25 f2p53m1 false false in
  r_labor r = S754_finite false 6333186975989760 (-48) /\
  r_auto r = of_Z (2 ^ 53 - 24) /\
  add (r_labor r) (r_auto r) = of_Z (2 ^ 53 - 2) /\
  f2p53m1 = of_Z (2 ^ 53 - 1).
Proof. vm_compute. repeat split; reflexivity. Qed.

(** C2 (amended): the returned automation is the binary64 difference
    [tvg - labor]; [labor + automation == tvg] whenever that difference is
    exact; whenever the 90-per-workforce cap triggers on a finite [tvg],
    [labor] is [tvg], [automation] is [0] and the sum is [tvg]; and the sum
    is [tvg] for every pair of values of the dashboard's two sliders when the
    population is not below the jobs. *)
Theorem C2_automation_residual (self : MarkoEconomicSim) (jobs tvg : float) (d s : bool) :
  valid (population self) = true -> valid jobs = true -> valid tvg = true ->
  let r := calculate self jobs tvg d s in
  r_auto r = sub tvg (r_labor r) /\
  (exact_sub tvg (r_labor r) = true -> eqb (add (r_labor r) (r_auto r)) tvg = true) /\
  (gtb (mul (workforce self jobs) f90) tvg = true -> is_finite tvg = true ->
   r_labor r = tvg /\ r_auto r = pos_zero /\
   eqb (add (r_labor r) (r_auto r)) tvg = true) /\
  (In tvg Dashboard.slider_tvg -> In jobs Dashboard.slider_jobs ->
   ltb (population self) jobs = false ->
   eqb (add (r_labor r) (r_auto r)) tvg = true).
Proof.
  intros Vp Vj Vt r.
  destruct (calculate_fields self jobs tvg d s) as (El & Ea & _). fold r in El, Ea.
  pose proof (labor_val_valid self jobs tvg Vp Vj Vt) as Vl.
  rewrite Ea, El. split; [reflexivity|]. split; [|split].
  - intros X. apply add_sub_exact; assumption.
  - intros G F. assert (E : labor_val self jobs tvg = tvg) by (unfold labor_val; now rewrite G).
    rewrite E. split; [reflexivity|]. split; [apply sub_diag; assumption|].
    apply add_sub_exact; try assumption. apply exact_sub_diag; assumption.
  - intros It Ij P.
    assert (W : workforce self jobs = jobs) by (unfold workforce, PyFloat.min; now rewrite P).
    unfold labor_val. rewrite W.
    pose proof sliders_sum_exact_true as S. unfold Dashboard.sliders_sum_exact in S.
    rewrite forallb_forall in S. specialize (S tvg It).
    rewrite forallb_forall in S. exact (S jobs Ij).
Qed.

Lemma C2_automation_residual_witness :
  valid (population default_sim) = true /\ valid f16_5 = true /\ valid f1000 = true /\
  (let r := calculate default_sim f16_5 f1000 false false in
   r_auto r = sub f1000 (r_labor r) /\
   (exact_sub f1000 (r_labor r) = true -> eqb (add (r_labor r) (r_auto r)) f1000 = true) /\
   (gtb (mul (workforce default_sim f16_5) f90) f1000 = true -> is_finite f1000 = true ->
    r_labor r = f1000 /\ r_auto r = pos_zero /\
    eqb (add (r_labor r) (r_auto r)) f1000 = true) /\
   (In f1000 Dashboard.slider_tvg -> In f16_5 Dashboard.slider_jobs ->
    ltb (population default_sim) f16_5 = false ->
    eqb (add (r_labor r) (r_auto r)) f1000 = true)).
Proof.
  split; [reflexivity|]. split; [reflexivity|]. split; [reflexivity|].
  exact (C2_automation_residual default_sim f16_5 f1000 false false eq_refl eq_refl eq_refl).
Defined.

(** C3: with both flags set only the dividend branch runs: the allocation
    before the clamp is [tvg * 0.45] and the label is "National Dividend
    Active", whatever the threshold, the population and the jobs are. *)
Theorem C3_dividend_first (self : MarkoEconomicSim) (jobs tvg : float) :
  distribution self jobs tvg true true = (mul tvg f0_45, "National Dividend Active"%string) /\
  r_public (calculate self jobs tvg true true) = clamp tvg (mul tvg f0_45) /\
  r_policy (calculate self jobs tvg true true) = "National Dividend Active"%string /\
  (forall (self' : MarkoEconomicSim) (jobs' : float),
     distribution self' jobs' tvg true true = distribution self jobs tvg true true).
Proof.
  destruct (calculate_fields self jobs tvg true true) as (_ & _ & Ep & _ & El).
  rewrite Ep, El. repeat split; reflexivity.
Qed.

(** C4: with neither flag set, [tvg < 1000] gives the allocation
    [standardAllocation * (tvg / 1500)] and the label "Recession Cutbacks",
    and [tvg >= 1000] gives [standardAllocation], where
    [standardAllocation = workforce * 50.0]. *)
Theorem C4_default_branch (self : MarkoEconomicSim) (jobs tvg : float) :
  standard_allocation self jobs = mul (workforce self jobs) f50 /\
  (ltb tvg f1000 = true ->
   distribution self jobs tvg false false =
     (mul (standard_allocation self jobs) (div tvg f1500), "Recession Cutbacks"%string) /\
   r_policy (calculate self jobs tvg false false) = "Recession Cutbacks"%string) /\
  (geb tvg f1000 = true ->
   fst (distribution self jobs tvg false false) = standard_allocation self jobs).
Proof.
  split; [reflexivity|]. split.
  - intros L. destruct (calculate_fields self jobs tvg false false) as (_ & _ & _ & _ & El).
    rewrite El. unfold distribution. rewrite L. split; reflexivity.
  - intros G. unfold distribution. rewrite (leb_not_ltb tvg f1000 G). reflexivity.
Qed.

Lemma C4_default_branch_witness :
  ltb (of_Z 900) f1000 = true /\ geb f1500 f1000 = true /\
  distribution default_sim f16_5 (of_Z 900) false false =
    (mul (standard_allocation default_sim f16_5) (div (of_Z 900) f1500),
     "Recession Cutbacks"%string) /\
  fst (distribution default_sim f16_5 f1500 false false) =
    standard_allocation default_sim f16_5.
Proof.
  split; [reflexivity|]. split; [reflexivity|]. split.
  - exact (proj1 (proj1 (proj2 (C4_default_branch default_sim f16_5 (of_Z 900))) eq_refl)).
  - exact (proj2 (proj2 (C4_default_branch default_sim f16_5 f1500)) eq_refl).
Defined.

(** C5: with the stabilization flag set and the dividend flag clear, the
    allocation before the clamp is [QLT] with the label "Stabilization Fund
    TRIGGERED" if [tvg < 1000], and [standardAllocation] with the label
    "Stabilization Fund (Standby)" otherwise. *)
Theorem C5_stabilization_branch (self : MarkoEconomicSim) (jobs tvg : float) :
  distribution self jobs tvg false true =
    (if ltb tvg f1000
     then (QLT self, "Stabilization Fund TRIGGERED"%string)
     else (mul (workforce self jobs) f50, "Stabilization Fund (Standby)"%string)) /\
  r_policy (calculate self jobs tvg false true) =
    (if ltb tvg f1000
     then "Stabilization Fund TRIGGERED"%string
     else "Stabilization Fund (Standby)"%string) /\
  r_public (calculate self jobs tvg false true) =
    clamp tvg (if ltb tvg f1000 then QLT self else mul (workforce self jobs) f50).
Proof.
  destruct (calculate_fields self jobs tvg false true) as (_ & _ & Ep & _ & El).
  rewrite Ep, El. unfold distribution, standard_allocation.
  destruct (ltb tvg f1000); repeat split; reflexivity.
Qed.

(** C6: population 18, jobs 16.5, tvg 1500, threshold 667, no policy:
    labor 1485, automation 15, public allocation 825, elite surplus 675,
    label "Standard Model". *)
Theorem C6_default_scenario :
  calculate (mkSim (of_Z 667) (of_Z 18)) f16_5 (of_Z 1500) false false =
  mkResult (of_Z 1485) (of_Z 15) (of_Z 825) (of_Z 675) "Standard Model".
Proof. vm_compute. reflexivity. Qed.

(** C7: the renderer's [is_stable] is [public >= QLT] on the allocation the
    calculator returns, and it selects the green "STABLE" pair when true and
    the red "COLLAPSE" pair when false. *)
Theorem C7_status (tvg jobs population qlt : float) (policy : string) :
  let fig := Render.draw_system tvg jobs population qlt policy in
  let data := calculate (mkSim qlt population) jobs tvg
                (String.eqb policy "National Dividend")
                (String.eqb policy "Stabilization Fund") in
  (Render.fig_is_stable fig = true <-> geb (r_public data) qlt = true) /\
  (Render.fig_status_color fig, Render.fig_status_text fig) =
    (if Render.fig_is_stable fig
     then ("#2ecc71"%string, "STABLE"%string)
     else ("#e74c3c"%string, "COLLAPSE"%string)).
Proof.
  simpl. split; [tauto|].
  destruct (geb _ qlt); reflexivity.
Qed.

(** C8, as stated, fails: [jobs = 1.5000000000000002] and
    [jobs = 1.5000000000000004], both below the population 18 and with
    [jobs * 90 < tvg = 1500], give the same labor [135.00000000000003]: the
    two products round to the same double. *)
Lemma C8_counterexample :
  ~ (forall (self : MarkoEconomicSim) (j1 j2 tvg : float) (d s : bool),
       valid (population self) = true -> valid j1 = true -> valid j2 = true ->
       valid tvg = true ->
       ltb j1 j2 = true ->
       ltb (workforce self j1) (population self) = true ->
       ltb (workforce self j2) (population self) = true ->
       ltb (mul (workforce self j2) f90) tvg = true ->
       let r1 := calculate self j1 tvg d s in
       let r2 := calculate self j2 tvg d s in
       ltb (r_labor r1) (r_labor r2) = true /\
       eqb (add (r_labor r1) (r_auto r1)) tvg = true /\
       eqb (add (r_labor r2) (r_auto r2)) tvg = true).
Proof.
  intros H.
  specialize (H default_sim f1_5a f1_5b f1500 false false
                eq_refl eq_refl eq_refl eq_refl eq_refl eq_refl eq_refl eq_refl).
  destruct H as [H _]. vm_compute in H. discriminate.
Qed.

Example C8_counterexample_run :
  r_labor (calculate default_sim f1_5a f1500 false false) =
    S754_finite false 4749890231992321 (-45) /\
  r_labor (calculate default_sim f1_5b f1500 false false) =
    S754_finite false 4749890231992321 (-45).
Proof. vm_compute. split; reflexivity. Qed.

(** C8 (amended): when the jobs increase while the workforce stays strictly
    below the population, labor never decreases; it increases strictly when
    the two products [jobs * 90.0] differ and the smaller one is below [tvg];
    and automation is the binary64 difference [tvg - labor], with
    [labor + automation == tvg] whenever that difference is exact. *)
Theorem C8_labor_monotone (self : MarkoEconomicSim) (j1 j2 tvg : float) (d s : bool) :
  valid j1 = true -> valid j2 = true -> valid tvg = true ->
  ltb j1 j2 = true ->
  ltb (workforce self j1) (population self) = true ->
  ltb (workforce self j2) (population self) = true ->
  let r1 := calculate self j1 tvg d s in
  let r2 := calculate self j2 tvg d s in
  leb (r_labor r1) (r_labor r2) = true /\
  (ltb (mul j1 f90) (mul j2 f90) = true -> ltb (mul j1 f90) tvg = true ->
   ltb (r_labor r1) (r_labor r2) = true) /\
  r_auto r1 = sub tvg (r_labor r1) /\ r_auto r2 = sub tvg (r_labor r2) /\
  (exact_sub tvg (r_labor r1) = true -> eqb (add (r_labor r1) (r_auto r1)) tvg = true) /\
  (exact_sub tvg (r_labor r2) = true -> eqb (add (r_labor r2) (r_auto r2)) tvg = true).
Proof.
  intros V1 V2 Vt L W1 W2 r1 r2.
  destruct (calculate_fields self j1 tvg d s) as (El1 & Ea1 & _). fold r1 in El1, Ea1.
  destruct (calculate_fields self j2 tvg d s) as (El2 & Ea2 & _). fold r2 in El2, Ea2.
  assert (E1 : labor_val self j1 tvg = clamp tvg (mul j1 f90))
    by (unfold labor_val; rewrite (workforce_below self j1 W1); reflexivity).
  assert (E2 : labor_val self j2 tvg = clamp tvg (mul j2 f90))
    by (unfold labor_val; rewrite (workforce_below self j2 W2); reflexivity).
  assert (Vm1 : valid (mul j1 f90) = true) by (apply mul_valid; [assumption|reflexivity]).
  assert (Vm2 : valid (mul j2 f90) = true) by (apply mul_valid; [assumption|reflexivity]).
  rewrite Ea1, Ea2, El1, El2, E1, E2.
  split; [|split; [|split; [reflexivity|split; [reflexivity|split]]]].
  - apply clamp_mono. apply (mul_mono j1 j2 6333186975989760 (-46)); try assumption.
    + reflexivity.
    + apply ltb_leb; assumption.
  - intros Lab Lat. apply ltb_clamp; assumption.
  - intros X. apply add_sub_exact; try assumption. apply clamp_valid; assumption.
  - intros X. apply add_sub_exact; try assumption. apply clamp_valid; assumption.
Qed.

Lemma C8_labor_monotone_witness :
  valid f1_5a = true /\ valid f16_5 = true /\ valid f1500 = true /\
  ltb f1_5a f16_5 = true /\
  ltb (workforce default_sim f1_5a) (population default_sim) = true /\
  ltb (workforce default_sim f16_5) (population default_sim) = true /\
  (let r1 := calculate default_sim f1_5a f1500 false false in
   let r2 := calculate default_sim f16_5 f1500 false false in
   leb (r_labor r1) (r_labor r2) = true /\
   (ltb (mul f1_5a f90) (mul f16_5 f90) = true -> ltb (mul f1_5a f90) f1500 = true ->
    ltb (r_labor r1) (r_labor r2) = true) /\
   r_auto r1 = sub f1500 (r_labor r1) /\ r_auto r2 = sub f1500 (r_labor r2) /\
   (exact_sub f1500 (r_labor r1) = true -> eqb (add (r_labor r1) (r_auto r1)) f1500 = true) /\
   (exact_sub f1500 (r_labor r2) = true -> eqb (add (r_labor r2) (r_auto r2)) f1500 = true)).
Proof.
  split; [reflexivity|]. split; [reflexivity|]. split; [reflexivity|].
  split; [reflexivity|]. split; [reflexivity|]. split; [reflexivity|].
  exact (C8_labor_monotone default_sim f1_5a f16_5 f1500 false false
           eq_refl eq_refl eq_refl eq_refl eq_refl eq_refl).
Defined.

(** C9: a call of [calculate] on an object that holds a population and a
    threshold raises nothing, returns the value of the function [calculate]
    at these two attributes and the arguments, and leaves every attribute of
    every object as it was; so two calls in a row return the same result, and
    so do calls on any two heaps and objects that agree on the two attributes
    only. *)
Theorem C9_deterministic (st : Py.Store) (self : Py.addr) (p q jobs tvg : float)
    (d s : bool) :
  st self "population"%string = Some p -> st self "QLT"%string = Some q ->
  let r := calculate (mkSim q p) jobs tvg d s in
  Py.call_calculate self jobs tvg d s st = (Py.Returned r, st) /\
  Py.calculate_twice self jobs tvg d s st = (Py.Returned (r, r), st) /\
  (forall (st' : Py.Store) (self' : Py.addr),
     st' self' "population"%string = Some p -> st' self' "QLT"%string = Some q ->
     fst (Py.call_calculate self' jobs tvg d s st') =
     fst (Py.call_calculate self jobs tvg d s st)).
Proof.
  intros Ep Eq r.
  pose proof (call_calculate_run st self p q jobs tvg d s Ep Eq) as R. fold r in R.
  split; [exact R|]. split.
  - unfold Py.calculate_twice, Py.bind. rewrite R, R. reflexivity.
  - intros st' self' Ep' Eq'.
    rewrite R, (call_calculate_run st' self' p q jobs tvg d s Ep' Eq'). reflexivity.
Qed.

Lemma C9_deterministic_witness :
  default_store 0%nat "population"%string = Some (of_Z 18) /\
  default_store 0%nat "QLT"%string = Some (of_Z 667) /\
  Py.call_calculate 0%nat f16_5 f1500 false true default_store =
    (Py.Returned (calculate default_sim f16_5 f1500 false true), default_store) /\
  Py.calculate_twice 0%nat f16_5 f1500 false true default_store =
    (Py.Returned (calculate default_sim f16_5 f1500 false true,
                  calculate default_sim f16_5 f1500 false true), default_store).
Proof.
  split; [reflexivity|]. split; [reflexivity|].
  pose proof (C9_deterministic default_store 0%nat (of_Z 18) (of_Z 667) f16_5 f1500
                false true eq_refl eq_refl) as (A & B & _).
  split; [exact A|exact B].
Defined.

(** C10: the tail width of an arrow is [value * (25 / 3000)], replaced by 1
    when that is below 1; the four arrows of the figure carry the widths of the
    four flows; and the figure's numbers are those of [calculate], which takes
    no width. *)
Theorem C10_arrow_width (value : float) :
  Render.scale = div (of_Z 25) (of_Z 3000) /\
  Render.arrow_width value =
    (if ltb (mul value Render.scale) f1 then f1 else mul value Render.scale) /\
  (forall (tvg jobs population qlt : float) (policy : string),
     let fig := Render.draw_system tvg jobs population qlt policy in
     let data := calculate (mkSim qlt population) jobs tvg
                   (String.eqb policy "National Dividend")
                   (String.eqb policy "Stabilization Fund") in
     Render.fig_data fig = data /\
     map Render.a_tail_width (Render.fig_arrows fig) =
       map Render.arrow_width [r_labor data; r_auto data; r_elites data; r_public data]).
Proof.
  split; [reflexivity|]. split; [reflexivity|].
  intros. split; reflexivity.
Qed.

(** ** Further properties of the calculator and of the renderer *)

Import FloatMore Flows.

(** X1: the renderer turns the policy name into the two flags and never sets
    both: "National Dividend" sets the first, "Stabilization Fund" the second,
    and any other name sets none. *)
Theorem X1_policy_flags (tvg jobs population qlt : float) (policy : string) :
  let d := String.eqb policy "National Dividend" in
  let s := String.eqb policy "Stabilization Fund" in
  Render.fig_data (Render.draw_system tvg jobs population qlt policy) =
    calculate (mkSim qlt population) jobs tvg d s /\
  d && s = false /\
  (d = true <-> policy = "National Dividend"%string) /\
  (s = true <-> policy = "Stabilization Fund"%string).
Proof.
  simpl. split; [reflexivity|]. split.
  - destruct (String.eqb_spec policy "National Dividend") as [->|N]; reflexivity.
  - split; apply String.eqb_eq.
Qed.

(** X2: the workforce [min(jobs, population)] is a NaN exactly when the jobs
    are: a NaN population is ignored and the workforce is then the jobs.  Away
    from NaN it is at most the jobs and at most the population. *)
Theorem X2_workforce_min (self : MarkoEconomicSim) (jobs : float) :
  is_nan (workforce self jobs) = is_nan jobs /\
  (is_nan (population self) = true -> workforce self jobs = jobs) /\
  (is_nan jobs = false -> leb (workforce self jobs) jobs = true) /\
  (is_nan jobs = false -> is_nan (population self) = false ->
   leb (workforce self jobs) (population self) = true).
Proof.
  unfold workforce. split; [apply min_nan|]. split; [|split].
  - intros Np. unfold PyFloat.min. destruct (ltb (population self) jobs) eqn:E; [|reflexivity].
    destruct (ltb_not_nan _ _ E) as [N _]. congruence.
  - apply min_le_l.
  - apply min_le_r.
Qed.

Lemma X2_workforce_min_witness :
  is_nan (population (mkSim (of_Z 667) S754_nan)) = true /\
  is_nan f16_5 = false /\ is_nan (population default_sim) = false /\
  workforce (mkSim (of_Z 667) S754_nan) f16_5 = f16_5 /\
  leb (workforce default_sim f16_5) f16_5 = true /\
  leb (workforce default_sim f16_5) (population default_sim) = true.
Proof.
  split; [reflexivity|]. split; [reflexivity|]. split; [reflexivity|]. split; [|split].
  - exact (proj1 (proj2 (X2_workforce_min (mkSim (of_Z 667) S754_nan) f16_5)) eq_refl).
  - exact (proj1 (proj2 (proj2 (X2_workforce_min default_sim f16_5))) eq_refl).
  - exact (proj2 (proj2 (proj2 (X2_workforce_min default_sim f16_5))) eq_refl eq_refl).
Defined.

(** X3: the labor cap: whenever [tvg] and the returned labor are not NaN,
    [labor <= tvg]; and whenever moreover [tvg] is finite, the returned
    automation is [>= 0]. *)
Theorem X3_labor_capped (self : MarkoEconomicSim) (jobs tvg : float) (d s : bool) :
  valid (population self) = true -> valid jobs = true -> valid tvg = true ->
  let r := calculate self jobs tvg d s in
  (is_nan tvg = false -> is_nan (r_labor r) = false -> leb (r_labor r) tvg = true) /\
  (is_finite tvg = true -> is_nan (r_labor r) = false -> leb pos_zero (r_auto r) = true).
Proof.
  intros Vp Vj Vt r.
  destruct (calculate_fields self jobs tvg d s) as (El & Ea & _). fold r in El, Ea.
  rewrite Ea, El.
  change (labor_val self jobs tvg) with (clamp tvg (mul (workforce self jobs) f90)).
  split.
  - intros Nt Nl. apply clamp_leb; assumption.
  - intros Ft Nl. apply sub_nonneg; try assumption.
    + apply (labor_val_valid self jobs tvg Vp Vj Vt).
    + apply clamp_leb; [apply finite_not_nan|]; assumption.
Qed.

Lemma X3_labor_capped_witness :
  valid (population default_sim) = true /\ valid f16_5 = true /\ valid f1000 = true /\
  (let r := calculate default_sim f16_5 f1000 false false in
   (is_nan f1000 = false -> is_nan (r_labor r) = false -> leb (r_labor r) f1000 = true) /\
   (is_finite f1000 = true -> is_nan (r_labor r) = false ->
    leb pos_zero (r_auto r) = true)).
Proof.
  split; [reflexivity|]. split; [reflexivity|]. split; [reflexivity|].
  exact (X3_labor_capped default_sim f16_5 f1000 false false eq_refl eq_refl eq_refl).
Defined.

(** X4: more jobs never lower the workforce, the labor or the standard
    allocation, whatever the population; and once the population is below the
    jobs, more jobs change nothing in the result. *)
Theorem X4_monotone_in_jobs (self : MarkoEconomicSim) (j1 j2 tvg : float) (d s : bool) :
  valid (population self) = true -> valid j1 = true -> valid j2 = true ->
  leb j1 j2 = true ->
  leb (workforce self j1) (workforce self j2) = true /\
  leb (labor_val self j1 tvg) (labor_val self j2 tvg) = true /\
  leb (standard_allocation self j1) (standard_allocation self j2) = true /\
  (ltb (population self) j1 = true ->
   calculate self j1 tvg d s = calculate self j2 tvg d s).
Proof.
  intros Vp V1 V2 L.
  assert (W : leb (workforce self j1) (workforce self j2) = true)
    by (apply min_mono_l; assumption).
  pose proof (workforce_valid self j1 Vp V1) as Vw1.
  pose proof (workforce_valid self j2 Vp V2) as Vw2.
  split; [exact W|]. split; [|split].
  - change (labor_val self j1 tvg) with (clamp tvg (mul (workforce self j1) f90)).
    change (labor_val self j2 tvg) with (clamp tvg (mul (workforce self j2) f90)).
    apply clamp_mono. apply (mul_mono _ _ 6333186975989760 (-46)); try assumption. reflexivity.
  - apply (mul_mono _ _ 7036874417766400 (-47)); try assumption. reflexivity.
  - intros P1. pose proof (ltb_leb_ltb _ _ _ P1 L) as P2.
    assert (E1 : workforce self j1 = population self)
      by (unfold workforce, PyFloat.min; now rewrite P1).
    assert (E2 : workforce self j2 = population self)
      by (unfold workforce, PyFloat.min; now rewrite P2).
    unfold calculate, labor_val, distribution, standard_allocation.
    rewrite E1, E2. reflexivity.
Qed.

Lemma X4_monotone_in_jobs_witness :
  valid (population default_sim) = true /\ valid (of_Z 19) = true /\ valid (of_Z 20) = true /\
  leb (of_Z 19) (of_Z 20) = true /\ ltb (population default_sim) (of_Z 19) = true /\
  leb (workforce default_sim (of_Z 19)) (workforce default_sim (of_Z 20)) = true /\
  leb (labor_val default_sim (of_Z 19) f1500) (labor_val default_sim (of_Z 20) f1500) = true /\
  leb (standard_allocation default_sim (of_Z 19))
      (standard_allocation default_sim (of_Z 20)) = true /\
  calculate default_sim (of_Z 19) f1500 false false =
    calculate default_sim (of_Z 20) f1500 false false.
Proof.
  split; [reflexivity|]. split; [reflexivity|]. split; [reflexivity|].
  split; [reflexivity|]. split; [reflexivity|].
  pose proof (X4_monotone_in_jobs default_sim (of_Z 19) (of_Z 20) f1500 false false
                eq_refl eq_refl eq_refl eq_refl) as (A & B & C & D).
  split; [exact A|]. split; [exact B|]. split; [exact C|]. exact (D eq_refl).
Defined.

(** X5: under the dividend policy with [tvg >= 0] the clamp never fires: the
    returned allocation is [tvg * 0.45], between [0] and [tvg]. *)
Theorem X5_dividend_unclamped (self : MarkoEconomicSim) (jobs tvg : float) (s : bool) :
  valid tvg = true -> leb pos_zero tvg = true ->
  let r := calculate self jobs tvg true s in
  r_public r = mul tvg f0_45 /\
  leb pos_zero (r_public r) = true /\ leb (r_public r) tvg = true.
Proof.
  intros Vt Pt r. unfold r. rewrite (dividend_unclamped self jobs tvg s Vt Pt).
  split; [reflexivity|]. split.
  - apply (mul_pos_const_nonneg tvg 8106479329266893 (-54)); try assumption. reflexivity.
  - apply (mul_le_self tvg 8106479329266893 (-54)); try assumption; reflexivity.
Qed.

Lemma X5_dividend_unclamped_witness :
  valid f1500 = true /\ leb pos_zero f1500 = true /\
  (let r := calculate default_sim f16_5 f1500 true false in
   r_public r = mul f1500 f0_45 /\
   leb pos_zero (r_public r) = true /\ leb (r_public r) f1500 = true).
Proof.
  split; [reflexivity|]. split; [reflexivity|].
  exact (X5_dividend_unclamped default_sim f16_5 f1500 false eq_refl eq_refl).
Defined.

(** X6: under the dividend policy a larger non-negative [tvg] never lowers
    the public allocation, whatever the jobs, the population and the threshold
    of the two calls are. *)
Theorem X6_dividend_monotone (self self' : MarkoEconomicSim) (jobs jobs' t1 t2 : float)
    (s s' : bool) :
  valid t1 = true -> valid t2 = true ->
  leb pos_zero t1 = true -> leb t1 t2 = true ->
  leb (r_public (calculate self jobs t1 true s))
      (r_public (calculate self' jobs' t2 true s')) = true.
Proof.
  intros V1 V2 P1 L.
  pose proof (leb_trans _ _ _ P1 L) as P2.
  rewrite (dividend_unclamped self jobs t1 s V1 P1).
  rewrite (dividend_unclamped self' jobs' t2 s' V2 P2).
  apply (mul_mono t1 t2 8106479329266893 (-54)); try assumption. reflexivity.
Qed.

Lemma X6_dividend_monotone_witness :
  valid f1000 = true /\ valid f1500 = true /\
  leb pos_zero f1000 = true /\ leb f1000 f1500 = true /\
  leb (r_public (calculate default_sim f16_5 f1000 true false))
      (r_public (calculate default_sim f0_25 f1500 true true)) = true.
Proof.
  split; [reflexivity|]. split; [reflexivity|]. split; [reflexivity|]. split; [reflexivity|].
  exact (X6_dividend_monotone default_sim default_sim f16_5 f0_25 f1000 f1500 false true
           eq_refl eq_refl eq_refl eq_refl).
Defined.

(** X7: when the stabilization fund is triggered ([tvg < 1000]) the payout is
    the smaller of the threshold and [tvg], and the figure is STABLE exactly
    when the threshold can be paid in full, [QLT <= tvg]. *)
Theorem X7_stabilization_stable (tvg jobs population qlt : float) :
  ltb tvg f1000 = true -> is_nan qlt = false ->
  let fig := Render.draw_system tvg jobs population qlt "Stabilization Fund" in
  r_public (Render.fig_data fig) = (if leb qlt tvg then qlt else tvg) /\
  Render.fig_is_stable fig = leb qlt tvg /\
  Render.fig_status_text fig = (if leb qlt tvg then "STABLE" else "COLLAPSE")%string.
Proof.
  intros T Nq fig.
  assert (Nt : is_nan tvg = false) by apply (ltb_not_nan tvg f1000 T).
  assert (P : r_public (Render.fig_data fig) = (if leb qlt tvg then qlt else tvg)).
  { unfold fig, Render.draw_system. cbn [Render.fig_data].
    change (String.eqb "Stabilization Fund" "National Dividend") with false.
    change (String.eqb "Stabilization Fund" "Stabilization Fund") with true.
    destruct (calculate_fields (mkSim qlt population) jobs tvg false true) as (_ & _ & -> & _).
    unfold distribution. rewrite T. cbn [fst QLT]. unfold clamp, gtb.
    fold (ltb tvg qlt). destruct (leb qlt tvg) eqn:Q'.
    - now rewrite (leb_not_ltb _ _ Q').
    - destruct (ltb tvg qlt) eqn:Q; [reflexivity|].
      rewrite (not_ltb_leb qlt tvg Nq Nt Q) in Q'. discriminate. }
  assert (E : Render.fig_is_stable fig = leb qlt tvg).
  { change (Render.fig_is_stable fig) with (geb (r_public (Render.fig_data fig)) qlt).
    rewrite P. unfold geb. destruct (leb qlt tvg) eqn:Q'.
    - apply (leb_refl qlt Nq).
    - exact Q'. }
  split; [exact P|]. split; [exact E|].
  change (Render.fig_status_text fig)
    with (if Render.fig_is_stable fig then "STABLE"%string else "COLLAPSE"%string).
  rewrite E. reflexivity.
Qed.

Lemma X7_stabilization_stable_witness :
  ltb (of_Z 900) f1000 = true /\ is_nan (of_Z 667) = false /\
  (let fig := Render.draw_system (of_Z 900) f16_5 (of_Z 18) (of_Z 667) "Stabilization Fund" in
   r_public (Render.fig_data fig) = (if leb (of_Z 667) (of_Z 900) then of_Z 667 else of_Z 900) /\
   Render.fig_is_stable fig = leb (of_Z 667) (of_Z 900) /\
   Render.fig_status_text fig =
     (if leb (of_Z 667) (of_Z 900) then "STABLE" else "COLLAPSE")%string).
Proof.
  split; [reflexivity|]. split; [reflexivity|].
  exact (X7_stabilization_stable (of_Z 900) f16_5 (of_Z 18) (of_Z 667) eq_refl eq_refl).
Defined.

(** X8: while [tvg < 1000] is false the stabilization fund changes no number:
    the four values are those of the standard model, only the label differs. *)
Theorem X8_standby_is_standard (self : MarkoEconomicSim) (jobs tvg : float) :
  ltb tvg f1000 = false ->
  let r := calculate self jobs tvg false true in
  let r0 := calculate self jobs tvg false false in
  (r_labor r, r_auto r, r_public r, r_elites r) =
    (r_labor r0, r_auto r0, r_public r0, r_elites r0) /\
  r_policy r = "Stabilization Fund (Standby)"%string /\
  r_policy r0 = "Standard Model"%string.
Proof.
  intros T. unfold calculate, distribution. rewrite T. simpl. repeat split; reflexivity.
Qed.

Lemma X8_standby_is_standard_witness :
  ltb f1500 f1000 = false /\
  (let r := calculate default_sim f16_5 f1500 false true in
   let r0 := calculate default_sim f16_5 f1500 false false in
   (r_labor r, r_auto r, r_public r, r_elites r) =
     (r_labor r0, r_auto r0, r_public r0, r_elites r0) /\
   r_policy r = "Stabilization Fund (Standby)"%string /\
   r_policy r0 = "Standard Model"%string).
Proof.
  split; [reflexivity|].
  exact (X8_standby_is_standard default_sim f16_5 f1500 eq_refl).
Defined.

(** X9: for non-negative population, jobs and threshold and a finite
    non-negative [tvg], every flow of the result lies between [0] and [tvg],
    provided the public allocation is not a NaN. *)
Theorem X9_flows_within_total (self : MarkoEconomicSim) (jobs tvg : float) (d s : bool) :
  valid (QLT self) = true -> valid (population self) = true ->
  valid jobs = true -> valid tvg = true ->
  leb pos_zero (QLT self) = true -> leb pos_zero (population self) = true ->
  leb pos_zero jobs = true -> leb pos_zero tvg = true -> is_finite tvg = true ->
  let r := calculate self jobs tvg d s in
  is_nan (r_public r) = false ->
  Forall (fun v => leb pos_zero v = true /\ leb v tvg = true)
    [r_labor r; r_auto r; r_public r; r_elites r].
Proof.
  intros Vq Vp Vj Vt Pq Pp Pj Pt Ft r.
  destruct (calculate_fields self jobs tvg d s) as (El & Ea & Ep & Ee & _).
  fold r in El, Ea, Ep, Ee. rewrite Ee, Ea, El, Ep. intros N.
  destruct (labor_bounds self jobs tvg Vp Vj Pp Pj Pt) as [L0 L1].
  destruct (public_bounds self jobs tvg d s Vp Vj Vt Pq Pp Pj Pt N) as [P0 P1].
  pose proof (labor_val_valid self jobs tvg Vp Vj Vt) as Vl.
  pose proof (clamp_valid _ _ Vt (distribution_valid self jobs tvg d s Vq Vp Vj Vt)) as Va.
  repeat constructor; try assumption;
    try (apply sub_nonneg; assumption); apply sub_le_self; assumption.
Qed.

Lemma X9_flows_within_total_witness :
  valid (QLT default_sim) = true /\ valid (population default_sim) = true /\
  valid f16_5 = true /\ valid f1000 = true /\
  leb pos_zero (QLT default_sim) = true /\ leb pos_zero (population default_sim) = true /\
  leb pos_zero f16_5 = true /\ leb pos_zero f1000 = true /\ is_finite f1000 = true /\
  is_nan (r_public (calculate default_sim f16_5 f1000 false true)) = false /\
  (let r := calculate default_sim f16_5 f1000 false true in
   Forall (fun v => leb pos_zero v = true /\ leb v f1000 = true)
     [r_labor r; r_auto r; r_public r; r_elites r]).
Proof.
  do 10 (split; [reflexivity|]).
  exact (X9_flows_within_total default_sim f16_5 f1000 false true
           eq_refl eq_refl eq_refl eq_refl eq_refl eq_refl eq_refl eq_refl eq_refl eq_refl).
Defined.

(** X10: the tail width of an arrow is never below 1 for a value that is not
    a NaN (a NaN value gives a NaN width); it never decreases when the value
    grows; and a value of at most 3000 gives a width of at most 25. *)
Theorem X10_arrow_width_range (v v' : float) :
  valid v = true -> valid v' = true ->
  is_nan (Render.arrow_width v) = is_nan v /\
  (is_nan v = false -> leb f1 (Render.arrow_width v) = true) /\
  (leb v v' = true -> leb (Render.arrow_width v) (Render.arrow_width v') = true) /\
  (leb v (of_Z 3000) = true -> leb (Render.arrow_width v) (of_Z 25) = true).
Proof.
  intros Vv Vv'. split; [|split; [|split]].
  - unfold Render.arrow_width. cbv zeta.
    destruct (ltb (mul v Render.scale) f1) eqn:E.
    + destruct (ltb_not_nan _ _ E) as [N _]. rewrite scaled_nan in N by assumption.
      rewrite N. reflexivity.
    + apply scaled_nan. assumption.
  - apply arrow_width_floor; assumption.
  - apply arrow_width_mono; assumption.
  - apply arrow_width_cap; assumption.
Qed.

Lemma X10_arrow_width_range_witness :
  valid (of_Z 15) = true /\ valid f1500 = true /\ is_nan (of_Z 15) = false /\
  leb (of_Z 15) f1500 = true /\ leb (of_Z 15) (of_Z 3000) = true /\
  is_nan (Render.arrow_width (of_Z 15)) = is_nan (of_Z 15) /\
  leb f1 (Render.arrow_width (of_Z 15)) = true /\
  leb (Render.arrow_width (of_Z 15)) (Render.arrow_width f1500) = true /\
  leb (Render.arrow_width (of_Z 15)) (of_Z 25) = true.
Proof.
  do 5 (split; [reflexivity|]).
  pose proof (X10_arrow_width_range (of_Z 15) f1500 eq_refl eq_refl) as (A & B & C & D).
  split; [exact A|]. split; [exact (B eq_refl)|]. split; [exact (C eq_refl)|exact (D eq_refl)].
Defined.

(** X11: on the dashboard, that is for [tvg] on its slider (500 to 3000 in
    steps of 50) and any non-negative jobs, population and threshold, under
    every policy: the four flows lie between [0] and [tvg] (none is a NaN) and
    the four arrows have tail widths between 1 and 25. *)
Theorem X11_dashboard_figure (tvg jobs population qlt : float) (policy : string) :
  In tvg Dashboard.slider_tvg ->
  valid jobs = true -> valid population = true -> valid qlt = true ->
  leb pos_zero jobs = true -> leb pos_zero population = true -> leb pos_zero qlt = true ->
  let fig := Render.draw_system tvg jobs population qlt policy in
  let r := Render.fig_data fig in
  Forall (fun v => leb pos_zero v = true /\ leb v tvg = true)
    [r_labor r; r_auto r; r_public r; r_elites r] /\
  Forall (fun a => leb f1 (Render.a_tail_width a) = true /\
                   leb (Render.a_tail_width a) (of_Z 25) = true)
    (Render.fig_arrows fig).
Proof.
  intros I Vj Vp Vq Pj Pp Pq fig r.
  destruct (slider_tvg_facts tvg I) as (Vt & Ft & Pt & T3 & Dv).
  set (d := String.eqb policy "National Dividend").
  set (s := String.eqb policy "Stabilization Fund").
  set (self := mkSim qlt population).
  change r with (calculate self jobs tvg d s).
  change (Render.fig_arrows fig) with
    [ Render.draw_arrow 21 70 41 55 (r_labor (calculate self jobs tvg d s)) "#3498db";
      Render.draw_arrow 21 30 41 45 (r_auto (calculate self jobs tvg d s)) "#9b59b6";
      Render.draw_arrow 59 55 79 70 (r_elites (calculate self jobs tvg d s)) "#95a5a6";
      Render.draw_arrow 59 45 79 25 (r_public (calculate self jobs tvg d s))
        (if geb (r_public (calculate self jobs tvg d s)) qlt
         then "#2ecc71"%string else "#e74c3c"%string) ].
  clear fig r.
  destruct (calculate_fields self jobs tvg d s) as (El & Ea & Ep & Ee & _).
  rewrite Ee, Ea, El, Ep.
  assert (N : is_nan (clamp tvg (fst (distribution self jobs tvg d s))) = false).
  { apply clamp_not_nan; [apply nonneg_not_nan; assumption|].
    destruct (div tvg f1500) as [?|?| |[] m e] eqn:Ed; try contradiction.
    apply (distribution_not_nan self jobs tvg d s m e); assumption. }
  destruct (labor_bounds self jobs tvg Vp Vj Pp Pj Pt) as [L0 L1].
  destruct (public_bounds self jobs tvg d s Vp Vj Vt Pq Pp Pj Pt N) as [P0 P1].
  pose proof (labor_val_valid self jobs tvg Vp Vj Vt) as Vl.
  pose proof (clamp_valid _ _ Vt (distribution_valid self jobs tvg d s Vq Vp Vj Vt)) as Va.
  destruct (residual_bounds tvg _ Vt Vl Ft L0 L1) as [A0 A1].
  destruct (residual_bounds tvg _ Vt Va Ft P0 P1) as [E0 E1].
  pose proof (sub_valid _ _ Vt Vl) as Vau.
  pose proof (sub_valid _ _ Vt Va) as Vel.
  split.
  - repeat constructor; assumption.
  - repeat constructor; cbn [Render.a_tail_width Render.draw_arrow];
      try (apply arrow_width_floor; [assumption|apply nonneg_not_nan; assumption]);
      (apply arrow_width_cap; [assumption|]);
      eapply leb_trans; eassumption.
Qed.

Lemma X11_dashboard_figure_witness :
  In (of_Z 900) Dashboard.slider_tvg /\
  valid f16_5 = true /\ valid (of_Z 18) = true /\ valid (of_Z 667) = true /\
  leb pos_zero f16_5 = true /\ leb pos_zero (of_Z 18) = true /\
  leb pos_zero (of_Z 667) = true /\
  (let fig := Render.draw_system (of_Z 900) f16_5 (of_Z 18) (of_Z 667) "None" in
   let r := Render.fig_data fig in
   Forall (fun v => leb pos_zero v = true /\ leb v (of_Z 900) = true)
     [r_labor r; r_auto r; r_public r; r_elites r] /\
   Forall (fun a => leb f1 (Render.a_tail_width a) = true /\
                    leb (Render.a_tail_width a) (of_Z 25) = true)
     (Render.fig_arrows fig)).
Proof.
  assert (I : In (of_Z 900) Dashboard.slider_tvg)
    by (vm_compute; do 8 right; left; reflexivity).
  split; [exact I|]. do 6 (split; [reflexivity|]).
  exact (X11_dashboard_figure (of_Z 900) f16_5 (of_Z 18) (of_Z 667) "None" I
           eq_refl eq_refl eq_refl eq_refl eq_refl eq_refl).
Defined.

(** X12: the fill level of the public box, [20 * min(1.0, public / 1500)], is
    never a NaN and never above 20, the height of the box; it is the full 20
    when the public allocation is a NaN, and it is not negative when the
    public allocation is not. *)
Theorem X12_fill_height (tvg jobs population qlt : float) (policy : string) :
  valid tvg = true -> valid jobs = true -> valid population = true -> valid qlt = true ->
  let fig := Render.draw_system tvg jobs population qlt policy in
  is_nan (Render.fig_fill_height fig) = false /\
  leb (Render.fig_fill_height fig) (of_Z 20) = true /\
  (is_nan (r_public (Render.fig_data fig)) = true -> Render.fig_fill_height fig = of_Z 20) /\
  (leb pos_zero (r_public (Render.fig_data fig)) = true ->
   leb pos_zero (Render.fig_fill_height fig) = true).
Proof.
  intros Vt Vj Vp Vq fig.
  change (Render.fig_fill_height fig)
    with (mul (of_Z 20) (PyFloat.min f1 (div (r_public (Render.fig_data fig)) f1500))).
  assert (V : valid (r_public (Render.fig_data fig)) = true).
  { unfold fig, Render.draw_system. cbn [Render.fig_data].
    destruct (calculate_fields (mkSim qlt population) jobs tvg
                (String.eqb policy "National Dividend")
                (String.eqb policy "Stabilization Fund")) as (_ & _ & -> & _).
    apply clamp_valid; [assumption|]. apply distribution_valid; assumption. }
  destruct (level_facts _ V) as (_ & A & B & C & D).
  repeat split; assumption.
Qed.

Lemma X12_fill_height_witness :
  valid f1500 = true /\ valid f16_5 = true /\ valid (of_Z 18) = true /\
  valid (of_Z 667) = true /\
  (let fig := Render.draw_system f1500 f16_5 (of_Z 18) (of_Z 667) "None" in
   is_nan (Render.fig_fill_height fig) = false /\
   leb (Render.fig_fill_height fig) (of_Z 20) = true /\
   (is_nan (r_public (Render.fig_data fig)) = true -> Render.fig_fill_height fig = of_Z 20) /\
   (leb pos_zero (r_public (Render.fig_data fig)) = true ->
    leb pos_zero (Render.fig_fill_height fig) = true)).
Proof.
  do 4 (split; [reflexivity|]).
  exact (X12_fill_height f1500 f16_5 (of_Z 18) (of_Z 667) "None"
           eq_refl eq_refl eq_refl eq_refl).
Defined.

(** X13: the threshold marker, [15 + 20 * min(1.0, qlt / 1500)], is never
    above 35, the top of the public box; it is not below 15, the bottom of the
    box, when the threshold is not negative; and it sits at 35 when the
    threshold is a NaN. *)
Theorem X13_threshold_marker (tvg jobs population qlt : float) (policy : string) :
  valid qlt = true ->
  let fig := Render.draw_system tvg jobs population qlt policy in
  leb (Render.fig_qlt_h fig) (of_Z 35) = true /\
  (leb pos_zero qlt = true -> leb (of_Z 15) (Render.fig_qlt_h fig) = true) /\
  (is_nan qlt = true -> Render.fig_qlt_h fig = of_Z 35).
Proof.
  intros Vq fig.
  change (Render.fig_qlt_h fig)
    with (add (of_Z 15) (mul (of_Z 20) (PyFloat.min f1 (div qlt f1500)))).
  destruct (level_facts _ Vq) as (Vh & Nh & Lh & Eh & Ph).
  assert (C15 : of_Z 15 = S754_finite false 8444249301319680 (-49)) by (vm_compute; reflexivity).
  assert (E35 : add (of_Z 15) (of_Z 20) = of_Z 35) by (vm_compute; reflexivity).
  assert (E15 : add (of_Z 15) pos_zero = of_Z 15) by (vm_compute; reflexivity).
  split; [|split].
  - rewrite <- E35, C15. apply add_mono_r; try assumption; reflexivity.
  - intros Pq. rewrite <- E15 at 1. rewrite C15.
    apply add_mono_r; try reflexivity; try assumption. apply Ph. assumption.
  - intros Nq. rewrite (Eh Nq). exact E35.
Qed.

Lemma X13_threshold_marker_witness :
  valid (of_Z 667) = true /\ leb pos_zero (of_Z 667) = true /\
  valid S754_nan = true /\ is_nan S754_nan = true /\
  leb (Render.fig_qlt_h (Render.draw_system f1500 f16_5 (of_Z 18) (of_Z 667) "None"))
      (of_Z 35) = true /\
  leb (of_Z 15)
      (Render.fig_qlt_h (Render.draw_system f1500 f16_5 (of_Z 18) (of_Z 667) "None")) = true /\
  Render.fig_qlt_h (Render.draw_system f1500 f16_5 (of_Z 18) S754_nan "None") = of_Z 35.
Proof.
  do 4 (split; [reflexivity|]).
  pose proof (X13_threshold_marker f1500 f16_5 (of_Z 18) (of_Z 667) "None" eq_refl)
    as (A & B & _).
  pose proof (X13_threshold_marker f1500 f16_5 (of_Z 18) S754_nan "None" eq_refl)
    as (_ & _ & C).
  split; [exact A|]. split; [exact (B eq_refl)|exact (C eq_refl)].
Defined.

(** X14: the policy flags and the threshold never reach the origin side:
    labor and automation depend on the jobs, the population and [tvg] only;
    and the threshold is read by the triggered stabilization fund alone, every
    other branch returns the same result for any two thresholds. *)
Theorem X14_noninterference (self self' : MarkoEconomicSim) (jobs tvg : float)
    (d s d' s' : bool) :
  population self = population self' ->
  (r_labor (calculate self jobs tvg d s), r_auto (calculate self jobs tvg d s)) =
  (r_labor (calculate self' jobs tvg d' s'), r_auto (calculate self' jobs tvg d' s')) /\
  (negb d && s && ltb tvg f1000 = false ->
   calculate self jobs tvg d s = calculate self' jobs tvg d s).
Proof.
  intros E. split.
  - destruct (calculate_fields self jobs tvg d s) as (-> & -> & _).
    destruct (calculate_fields self' jobs tvg d' s') as (-> & -> & _).
    unfold labor_val, workforce. rewrite E. reflexivity.
  - intros B. unfold calculate, distribution, labor_val, standard_allocation, workforce.
    rewrite E. destruct d; [reflexivity|]. destruct s; [|reflexivity].
    destruct (ltb tvg f1000); [discriminate|reflexivity].
Qed.

Lemma X14_noninterference_witness :
  population default_sim = population (mkSim f1 (of_Z 18)) /\
  negb false && true && ltb f1500 f1000 = false /\
  (r_labor (calculate default_sim f16_5 f1500 false true),
   r_auto (calculate default_sim f16_5 f1500 false true)) =
  (r_labor (calculate (mkSim f1 (of_Z 18)) f16_5 f1500 true false),
   r_auto (calculate (mkSim f1 (of_Z 18)) f16_5 f1500 true false)) /\
  calculate default_sim f16_5 f1500 false true =
    calculate (mkSim f1 (of_Z 18)) f16_5 f1500 false true.
Proof.
  split; [reflexivity|]. split; [reflexivity|].
  pose proof (X14_noninterference default_sim (mkSim f1 (of_Z 18)) f16_5 f1500
                false true true false eq_refl) as (A & B).
  split; [exact A|exact (B eq_refl)].
Defined.
